(** * Trend_Speculator_Strategy: signal evaluation engine

    A shallow embedding of the three scripts of the repository

      - [position_management.py]   (ATR based position sizing),
      - [etf_risk_monitor.py]      (divergence and death-cross flags),
      - [etf_trend_evaluation.py]  (weighted trend score, batch runner),

    and the properties their specification states about them.

    Numbers.  The scripts compute on IEEE doubles.  Here a float is an exact
    rational or NaN: [fl := option Q], with [None] standing for NaN.  The
    price columns of a data frame hold rationals (the provider's numbers,
    after [astype(float)]); NaN appears only where the code creates it
    ([shift(1)], the head of a windowed indicator).  Rounding error of double
    arithmetic is not modelled.

    Exceptions.  Code that can raise returns a [result]; the [try]/[except]
    of [calculate_position] turns a raised exception into [None]. *)

From Stdlib Require Import String.
From Stdlib Require Import QArith Qround Qabs ZArith List Lia Lqa Bool.
From Stdlib Require Import Permutation Sorted.
Import ListNotations.

Local Open Scope Q_scope.

(** ** Python and pandas primitives *)

Module Py.

(** A float: a rational, or NaN. *)
Definition fl := option Q.

Definition NaN : fl := None.

Inductive exn := IndexError | ValueError | OverflowError.

Inductive result (A : Type) : Type :=
| Ok (a : A)
| Raise (e : exn).

Arguments Ok {A} a.
Arguments Raise {A} e.

Definition bind {A B : Type} (m : result A) (k : A -> result B) : result B :=
  match m with
  | Ok a => k a
  | Raise e => Raise e
  end.

Notation "x <- m ;; k" := (bind m (fun x => k))
  (at level 61, m at next level, right associativity).

(** [try: m except Exception: return None] *)
Definition try_except {A : Type} (m : result (option A)) : option A :=
  match m with
  | Ok r => r
  | Raise _ => None
  end.

(** Arithmetic on floats: NaN propagates. *)
Definition lift2 (f : Q -> Q -> Q) (a b : fl) : fl :=
  match a, b with
  | Some x, Some y => Some (f x y)
  | _, _ => None
  end.

Definition fadd := lift2 Qplus.
Definition fsub := lift2 Qminus.
Definition fmul := lift2 Qmult.

(** Division is only ever applied to a non-zero divisor by the modelled code;
    a zero divisor gives a non-finite value, merged here with NaN. *)
Definition fdiv (a b : fl) : fl :=
  match a, b with
  | Some x, Some y => if Qeq_bool y 0 then None else Some (x / y)
  | _, _ => None
  end.

Definition fabs (a : fl) : fl := option_map Qabs a.

(** Comparisons with NaN are false. *)
Definition fgt (a b : fl) : bool :=
  match a, b with
  | Some x, Some y => negb (Qle_bool x y)
  | _, _ => false
  end.

Definition flt (a b : fl) : bool := fgt b a.

Definition qmax (x y : Q) : Q := if Qle_bool x y then y else x.

(** [np.maximum]: element-wise maximum, NaN if either side is NaN. *)
Definition np_maximum : fl -> fl -> fl := lift2 qmax.

(** The builtin [min(a, b)]: [b] if [b < a], else [a]. *)
Definition py_min (a b : fl) : fl := if flt b a then b else a.

(** The builtin [max(a, b)]: [b] if [b > a], else [a]. *)
Definition py_max (a b : fl) : fl := if fgt b a then b else a.

(** [pd.isna] *)
Definition isna (a : fl) : bool :=
  match a with
  | None => true
  | Some _ => false
  end.

(** Round half to even, to an integer. *)
Definition round_half_even (y : Q) : Z :=
  let f := Qfloor y in
  match Qcompare (y - inject_Z f) (1 # 2) with
  | Lt => f
  | Gt => (f + 1)%Z
  | Eq => if Z.even f then f else (f + 1)%Z
  end.

Definition pow10 (nd : nat) : Q := inject_Z (10 ^ Z.of_nat nd).

(** [round(x, nd)] on a finite float. *)
Definition round_q (x : Q) (nd : nat) : Q :=
  inject_Z (round_half_even (x * pow10 nd)) / pow10 nd.

(** [round(x, nd)]; NaN stays NaN. *)
Definition py_round (x : fl) (nd : nat) : fl :=
  option_map (fun q => round_q q nd) x.

(** [s.tail(n)] *)
Definition tail {A : Type} (n : nat) (xs : list A) : list A :=
  skipn (length xs - n) xs.

(** [s.shift(1)]: every value moves one row down, the first row is NaN. *)
Definition shift1 (xs : list Q) : list fl :=
  match xs with
  | [] => []
  | _ :: _ => None :: map Some (removelast xs)
  end.

(** [s.iloc[-k]] for [k >= 1]; [IndexError] when out of range. *)
Definition iloc_neg {A : Type} (xs : list A) (k : nat) : result A :=
  if (length xs <? k)%nat then Raise IndexError
  else match nth_error xs (length xs - k) with
       | Some a => Ok a
       | None => Raise IndexError
       end.

(** The defined (non-NaN) values of a series, in order. *)
Fixpoint dropna (xs : list fl) : list Q :=
  match xs with
  | [] => []
  | Some q :: r => q :: dropna r
  | None :: r => dropna r
  end.

Definition qsum (xs : list Q) : Q := fold_right Qplus 0 xs.

(** [s.mean()] with the default [skipna=True]: the mean of the defined
    values, NaN when there is none. *)
Definition mean (xs : list fl) : fl :=
  match dropna xs with
  | [] => None
  | d :: ds => Some (qsum (d :: ds) / inject_Z (Z.of_nat (length (d :: ds))))
  end.

(** [s.idxmax()] with the default [skipna=True]: the label of the first
    occurrence of the maximum among the defined values.  Labels are row
    positions.  On an empty series pandas raises [ValueError]; on a series
    of NaN only the result is NaN. *)
Fixpoint idxmax_from (best : option (nat * Q)) (i : nat) (xs : list fl)
  : option nat :=
  match xs with
  | [] => option_map fst best
  | None :: r => idxmax_from best (S i) r
  | Some v :: r =>
      match best with
      | None => idxmax_from (Some (i, v)) (S i) r
      | Some (_, m) =>
          if Qle_bool v m then idxmax_from best (S i) r
          else idxmax_from (Some (i, v)) (S i) r
      end
  end.

Definition idxmax (xs : list fl) : result (option nat) :=
  match xs with
  | [] => Raise ValueError
  | _ :: _ => Ok (idxmax_from None 0 xs)
  end.

(** [s.index[-1]]: the label of the last row. *)
Definition index_last {A : Type} (xs : list A) : result nat :=
  match xs with
  | [] => Raise IndexError
  | _ :: _ => Ok (length xs - 1)%nat
  end.

(** [s.index[0]]: the label of the first row. *)
Definition index_first {A : Type} (xs : list A) : result nat :=
  match xs with
  | [] => Raise IndexError
  | _ :: _ => Ok 0%nat
  end.

(** [a == b] for the result of [idxmax] (a label, or NaN) and a label. *)
Definition label_eqb (a : option nat) (b : nat) : bool :=
  match a with
  | Some i => Nat.eqb i b
  | None => false
  end.

(** [s.ewm(alpha=..., adjust=False).mean()]:
    [y_0 = x_0], [y_t = (1 - alpha) * y_(t-1) + alpha * x_t]. *)
Fixpoint ewm_from (alpha prev : Q) (xs : list Q) : list Q :=
  match xs with
  | [] => []
  | x :: r =>
      let y := (1 - alpha) * prev + alpha * x in
      y :: ewm_from alpha y r
  end.

Definition ewm_mean (alpha : Q) (xs : list Q) : list Q :=
  match xs with
  | [] => []
  | x :: r => x :: ewm_from alpha x r
  end.

(** [span=n] stands for [alpha = 2 / (n + 1)]. *)
Definition span_alpha (span : nat) : Q := 2 / (inject_Z (Z.of_nat span) + 1).

(** The [min_periods] argument of [ewm]: a row is NaN until it has seen
    [min_periods] observations. *)
Definition min_periods_mask (min_periods n : nat) : list bool :=
  map (fun i => (S i <? min_periods)%nat) (seq 0 n).

Definition apply_mask (mask : list bool) (ys : list Q) : list fl :=
  map (fun p : bool * Q => if fst p then NaN else Some (snd p))
      (combine mask ys).

Definition gate_min_periods (min_periods : nat) (ys : list Q) : list fl :=
  apply_mask (min_periods_mask min_periods (length ys)) ys.

End Py.

Import Py.

(** ** position_management.py *)

Module PositionManagement.

(** One row of the frame returned by [get_etf_data]: the columns
    [high], [low], [close], rows in ascending date order. *)
Record Bar := mkBar { high : Q; low : Q; close : Q }.

Definition DataFrame := list Bar.

Definition MAX_LOSS_PER_ETF : Z := 150.
Definition ATR_PERIOD : nat := 14.
Definition ATR_MULTIPLIER : Z := 2.

(** The dictionary returned by [calculate_position]; the fields are, in
    order, the ETF code, latest price, ATR value, suggested quantity,
    stop-loss percentage and maximum loss. *)
Record Position := mkPosition {
  etf_code : string;
  latest_price : Q;
  atr_value : Q;
  quantity : Z;
  stop_loss_pct : Q;
  max_loss : Q
}.

(** One entry of [df['tr']]: [prev] is the row of [close.shift(1)]. *)
Definition tr_row (b : Bar) (prev : fl) : fl :=
  np_maximum (Some (high b - low b))
    (np_maximum (fabs (fsub (Some (high b)) prev))
                (fabs (fsub (Some (low b)) prev))).

(** The column [df['tr']]. *)
Definition true_range (df : DataFrame) : list fl :=
  map (fun p => tr_row (fst p) (snd p)) (combine df (shift1 (map close df))).

(** [df['tr'].tail(ATR_PERIOD).mean()] *)
Definition latest_atr (df : DataFrame) : fl :=
  mean (tail ATR_PERIOD (true_range df)).

(** [int(n // x)] for an int [n] and a NumPy float [x].  With [x = 0] the
    floor quotient is infinite and [int] raises [OverflowError]. *)
Definition int_floordiv (n : Z) (x : Q) : result Z :=
  if Qeq_bool x 0 then Raise OverflowError
  else Ok (Qfloor (inject_Z n / x)).

(** The instruments [main] runs on. *)
Definition ETF_CODES : list string :=
  ["588000"; "588200"; "159205"; "510500"; "510300"]%string.

Section Fetch.

(** The data provider: [None] when the download fails. *)
Variable get_etf_data : string -> option DataFrame.

(** The body of the [try] block of [calculate_position]. *)
Definition calculate_position_try (code : string) : result (option Position) :=
  match get_etf_data code with
  | None => Ok None
  | Some df =>
      if (length df <? ATR_PERIOD)%nat then Ok None
      else
        let atr := latest_atr df in
        current_price <- iloc_neg (map close df) 1 ;;
        match atr with
        | None => Ok None
        | Some atr =>
            if Qle_bool current_price 0 then Ok None
            else
              let stop := inject_Z ATR_MULTIPLIER * atr / current_price * 100 in
              raw <- int_floordiv MAX_LOSS_PER_ETF (inject_Z ATR_MULTIPLIER * atr) ;;
              let qty := Z.max 100 (raw / 100 * 100) in
              Ok (Some {| etf_code := code;
                          latest_price := round_q current_price 3;
                          atr_value := round_q atr 3;
                          quantity := qty;
                          stop_loss_pct := round_q stop 2;
                          max_loss :=
                            round_q (inject_Z ATR_MULTIPLIER * atr * inject_Z qty) 2 |})
        end
  end.

Definition calculate_position (code : string) : option Position :=
  try_except (calculate_position_try code).

(** The [for] loop of [main], [results] being the list built so far. *)
Fixpoint collect_positions (codes : list string) (results : list Position)
  : list Position :=
  match codes with
  | [] => results
  | etf_code :: rest =>
      match calculate_position etf_code with
      | Some position => collect_positions rest (results ++ [position])
      | None => collect_positions rest results
      end
  end.

(** [main]: the table it saves to [etf_position_management.csv], [None] when
    it saves nothing. *)
Definition main : option (list Position) :=
  match collect_positions ETF_CODES [] with
  | [] => None
  | p :: ps => Some (p :: ps)
  end.

End Fetch.

(** Sample frames. *)
Definition flat_bars (n : nat) (p : Q) : DataFrame := repeat (mkBar p p p) n.

Definition ramp_bar (i : nat) : Bar :=
  let c := 10 + (Z.of_nat i # 10) in
  mkBar (c + (1 # 10)) (c - (1 # 10)) c.

Definition ramp_bars (n : nat) : DataFrame := map ramp_bar (seq 0 n).

End PositionManagement.

(** Reference notions used to state the properties of the position sizer. *)

Module PositionSpec.

Import PositionManagement.

(** The true range of a bar whose previous close [pc] exists. *)
Definition tr_q (b : Bar) (pc : Q) : Q :=
  qmax (high b - low b) (qmax (Qabs (high b - pc)) (Qabs (low b - pc))).

(** The true ranges of the bars [bs] that follow a bar of close [pc]. *)
Fixpoint trs_after (pc : Q) (bs : DataFrame) : list Q :=
  match bs with
  | [] => []
  | b :: r => tr_q b pc :: trs_after (close b) r
  end.

(** The defined true ranges of a frame: one per bar but the first. *)
Definition defined_trs (df : DataFrame) : list Q :=
  match df with
  | [] => []
  | b :: r => trs_after (close b) r
  end.

(** A float that is NaN or non-negative. *)
Definition fl_nonneg (x : fl) : Prop :=
  match x with
  | Some q => 0 <= q
  | None => True
  end.

(** What the code computes once the frame is long enough, its ATR is [a] and
    its latest close is [c]. *)
Definition sized (code : string) (a c : Q) : option Position :=
  if Qle_bool c 0 then None
  else if Qeq_bool a 0 then None
  else
    let qty := Z.max 100 (Qfloor (150 / (2 * a)) / 100 * 100) in
    Some {| etf_code := code;
            latest_price := round_q c 3;
            atr_value := round_q a 3;
            quantity := qty;
            stop_loss_pct := round_q (2 * a / c * 100) 2;
            max_loss := round_q (2 * a * inject_Z qty) 2 |}.

End PositionSpec.

(** ** etf_risk_monitor.py *)

Module RiskMonitor.

(** One row of the frame returned by [get_etf_data]: the columns [close] and
    [volume], rows in ascending date order. *)
Record Bar := mkBar { close : Q; volume : Q }.

Definition DataFrame := list Bar.

Definition RSI_PERIOD : nat := 14.
Definition EMA_SHORT : nat := 12.
Definition EMA_LONG : nat := 26.

Definition closes (df : DataFrame) : list Q := map close df.
Definition volumes (df : DataFrame) : list Q := map volume df.

(** The column [df['close']] as a series of floats. *)
Definition close_series (df : DataFrame) : list fl := map Some (closes df).

Section Indicators.

(** The indicators of the third-party [ta] package, taken as parameters:
    [RSIIndicator(close, window).rsi()],
    [OnBalanceVolumeIndicator(close, volume).on_balance_volume()] and
    [EMAIndicator(close, window).ema_indicator()]. *)
Variable rsi_indicator : list Q -> nat -> list fl.
Variable on_balance_volume : list Q -> list Q -> list fl.
Variable ema_indicator : list Q -> nat -> list fl.

Definition check_rsi_divergence (df : DataFrame) : result bool :=
  if (length df <? RSI_PERIOD + 5)%nat then Ok false
  else
    let rsi := rsi_indicator (closes df) RSI_PERIOD in
    let last_5 := tail 5 (close_series df) in
    let last_5_rsi := tail 5 rsi in
    price_at <- idxmax last_5 ;;
    price_last <- index_last last_5 ;;
    if label_eqb price_at price_last then
      rsi_at <- idxmax last_5_rsi ;;
      rsi_last <- index_last last_5_rsi ;;
      Ok (negb (label_eqb rsi_at rsi_last))
    else Ok false.

Definition check_obv_divergence (df : DataFrame) : result bool :=
  if (length df <? 10)%nat then Ok false
  else
    let obv := on_balance_volume (closes df) (volumes df) in
    let last_5_close := tail 5 (close_series df) in
    let last_5_obv := tail 5 obv in
    price_at <- idxmax last_5_close ;;
    price_last <- index_last last_5_close ;;
    if label_eqb price_at price_last then
      obv_at <- idxmax last_5_obv ;;
      obv_last <- index_last last_5_obv ;;
      Ok (negb (label_eqb obv_at obv_last))
    else Ok false.

Definition check_ema_death_cross (df : DataFrame) : result bool :=
  if (length df <? EMA_LONG + 1)%nat then Ok false
  else
    let ema_short := ema_indicator (closes df) EMA_SHORT in
    let ema_long := ema_indicator (closes df) EMA_LONG in
    short_prev <- iloc_neg ema_short 2 ;;
    long_prev <- iloc_neg ema_long 2 ;;
    if fgt short_prev long_prev then
      short_now <- iloc_neg ema_short 1 ;;
      long_now <- iloc_neg ema_long 1 ;;
      Ok (flt short_now long_now)
    else Ok false.

(** The data provider: [None] when the download or the quote lookup fails. *)
Variable get_etf_data : string -> option DataFrame.

(** The dictionary returned by [monitor_etf]; the fields are, in order, the
    ETF code, the latest price and the three warning flags. *)
Record Monitor := mkMonitor {
  etf_code : string;
  latest_price : Q;
  rsi_divergence : bool;
  obv_divergence : bool;
  ema_death_cross : bool
}.

Definition monitor_etf (code : string) : result (option Monitor) :=
  match get_etf_data code with
  | None => Ok None
  | Some df =>
      price <- iloc_neg (closes df) 1 ;;
      rsi_flag <- check_rsi_divergence df ;;
      obv_flag <- check_obv_divergence df ;;
      ema_flag <- check_ema_death_cross df ;;
      Ok (Some {| etf_code := code;
                  latest_price := round_q price 3;
                  rsi_divergence := rsi_flag;
                  obv_divergence := obv_flag;
                  ema_death_cross := ema_flag |})
  end.

End Indicators.

End RiskMonitor.

(** ** Reference models of the [ta] indicators

    The package is not part of the repository.  These definitions follow its
    published implementation and serve to instantiate the indicator
    parameters on concrete frames. *)

Module Ta.

(** [EMAIndicator(close, window).ema_indicator()]:
    [close.ewm(span=window, min_periods=window, adjust=False).mean()]. *)
Definition ema_indicator (close : list Q) (window : nat) : list fl :=
  gate_min_periods window (ewm_mean (span_alpha window) close).

(** [OnBalanceVolumeIndicator(close, volume).on_balance_volume()]: the
    running sum of the volume, counted negative on the rows whose close is
    below the previous close. *)
Fixpoint obv_from (acc prev : Q) (rows : list (Q * Q)) : list Q :=
  match rows with
  | [] => []
  | (c, v) :: r =>
      let acc' := if negb (Qle_bool prev c) then acc - v else acc + v in
      acc' :: obv_from acc' c r
  end.

Definition on_balance_volume (close volume : list Q) : list fl :=
  match combine close volume with
  | [] => []
  | (c, v) :: r => map Some (v :: obv_from v c r)
  end.

(** [close.diff(1)] split in gains and losses, the first row counting 0. *)
Fixpoint gains_from (prev : Q) (xs : list Q) : list (Q * Q) :=
  match xs with
  | [] => []
  | x :: r =>
      let d := x - prev in
      (if negb (Qle_bool d 0) then d else 0,
       if negb (Qle_bool 0 d) then - d else 0) :: gains_from x r
  end.

Definition gains (xs : list Q) : list (Q * Q) :=
  match xs with
  | [] => []
  | x :: r => (0, 0) :: gains_from x r
  end.

Definition rsi_value (up dn : Q) : Q :=
  if Qeq_bool dn 0 then 100 else 100 - 100 / (1 + up / dn).

(** [RSIIndicator(close, window).rsi()]: both averages are
    [ewm(alpha=1/window, min_periods=window, adjust=False).mean()]. *)
Definition rsi_indicator (close : list Q) (window : nat) : list fl :=
  let alpha := 1 / inject_Z (Z.of_nat window) in
  let up := ewm_mean alpha (map fst (gains close)) in
  let dn := ewm_mean alpha (map snd (gains close)) in
  gate_min_periods window
    (map (fun p => rsi_value (fst p) (snd p)) (combine up dn)).

End Ta.

(** Reference notions used to state the properties of the risk monitor. *)

Module RiskSpec.

Import RiskMonitor.

(** [i] is the position of the maximum of the defined values of [xs], the
    first one if the maximum occurs more than once. *)
Definition first_argmax (xs : list fl) (i : nat) : Prop :=
  exists v,
    nth_error xs i = Some (Some v) /\
    (forall j u, nth_error xs j = Some (Some u) -> u <= v) /\
    (forall j u, (j < i)%nat -> nth_error xs j = Some (Some u) -> u < v).

(** The last value of [xs] is defined and strictly above every other defined
    value: a new high. *)
Definition new_high (xs : list fl) : Prop :=
  first_argmax xs (length xs - 1).

(** The arg-max with the last-occurrence tie-break of the specification. *)
Fixpoint idxmax_last_from (best : option (nat * Q)) (i : nat) (xs : list fl)
  : option nat :=
  match xs with
  | [] => option_map fst best
  | None :: r => idxmax_last_from best (S i) r
  | Some v :: r =>
      match best with
      | None => idxmax_last_from (Some (i, v)) (S i) r
      | Some (_, m) =>
          if Qle_bool m v then idxmax_last_from (Some (i, v)) (S i) r
          else idxmax_last_from best (S i) r
      end
  end.

Definition idxmax_last (xs : list fl) : option nat := idxmax_last_from None 0 xs.

(** The top-divergence rule as the specification words it: over the last 5
    dates, the arg-max of the price is the last date and the arg-max of the
    oscillator is not, both with the last-occurrence tie-break. *)
Definition spec_top_divergence (price osc : list fl) : bool :=
  label_eqb (idxmax_last (tail 5 price)) (length (tail 5 price) - 1) &&
  negb (label_eqb (idxmax_last (tail 5 osc)) (length (tail 5 osc) - 1)).

(** The comparison both divergence checks perform on their two windows. *)
Definition top_divergence (price osc : list fl) : result bool :=
  price_at <- idxmax price ;;
  price_last <- index_last price ;;
  if label_eqb price_at price_last then
    osc_at <- idxmax osc ;;
    osc_last <- index_last osc ;;
    Ok (negb (label_eqb osc_at osc_last))
  else Ok false.

(** The minimum length the specification gives for a divergence check. *)
Definition spec_min_points (required_prior_window : nat) : nat :=
  Nat.max required_prior_window 5.

(** The number of defined points of an indicator series. *)
Definition defined_points (s : list fl) : nat := length (dropna s).

(** The NaN gate of the [ta] moving average on a frame of [n] rows: the
    series is aligned with the frame, NaN on its first [window - 1] rows and
    defined from then on ([min_periods = window]). *)
Definition gated (window n : nat) (s : list fl) : Prop :=
  map isna s = min_periods_mask window n.

(** The last of the five closes is strictly above the four before it. *)
Definition strict_closing_high (df : DataFrame) : Prop :=
  exists last,
    nth_error (tail 5 (closes df)) 4 = Some last /\
    forall j c,
      (j < 4)%nat -> nth_error (tail 5 (closes df)) j = Some c -> c < last.

(** Sample frames. *)
Definition frame (rows : list (Q * Q)) : DataFrame :=
  map (fun r => mkBar (fst r) (snd r)) rows.

(** Ten bars; the last close ties the high made two bars earlier, on a
    falling on-balance volume. *)
Definition tie_frame : DataFrame :=
  frame [(1, 1000); (1, 1000); (1, 1000); (1, 1000); (1, 1000);
         (1, 1000); (2, 1000); (5, 1000); (4, 3000); (5, 1000)].

(** Twelve bars closing on a new high while the volume went to the
    declines. *)
Definition thin_high_frame : DataFrame :=
  frame [(1, 1000); (1, 1000); (1, 1000); (1, 1000); (1, 1000); (1, 1000);
         (1, 1000); (3, 1000); (5, 1000); (4, 3000); (3, 3000); (6, 1000)].

(** [n] bars of closes 10.0, 10.1, 10.2, ... and constant volume. *)
Definition rising_frame (n : nat) : DataFrame :=
  map (fun i => mkBar (10 + (Z.of_nat i # 10)) 1000) (seq 0 n).

(** A rise of [n] bars followed by a fall of [m] bars of 0.5 each. *)
Definition peak_frame (n m : nat) : DataFrame :=
  rising_frame n ++
  map (fun i => mkBar (10 + (Z.of_nat n # 10) - (Z.of_nat (S i) # 2)) 1000)
      (seq 0 m).

End RiskSpec.

(** ** etf_trend_evaluation.py *)

Module TrendEvaluation.

(** One row of the frame returned by [get_etf_data]: the columns [high],
    [low] and [close], rows in ascending date order. *)
Record Bar := mkBar { high : Q; low : Q; close : Q }.

(** One row of the frame after [calculate_technical_indicators]: the bar and
    the columns [ADX], [MACD_DIF], [MACD_DEA] and [RSI]. *)
Record Row := mkRow {
  bar : Bar;
  ADX : fl;
  MACD_DIF : fl;
  MACD_DEA : fl;
  RSI : fl
}.

(** The dictionary returned by [evaluate_trend]; the fields are, in order,
    the ETF code, the ADX value, the MACD flag, the RSI value and the
    composite trend score. *)
Record Evaluation := mkEvaluation {
  etf_code : string;
  adx_value : fl;
  macd_status : bool;
  rsi_value : fl;
  total_score : fl
}.

(** The value of a column at a row label; NaN where the series has no such
    label. *)
Definition column (s : list fl) (i : nat) : fl :=
  match nth_error s i with
  | Some v => v
  | None => NaN
  end.

(** Element-wise difference of two series. *)
Fixpoint series_sub (xs ys : list Q) : list Q :=
  match xs, ys with
  | x :: xr, y :: yr => (x - y) :: series_sub xr yr
  | _, _ => []
  end.

Section Indicators.

(** The indicators of the third-party [ta] package, taken as parameters:
    [ADXIndicator(high, low, close, window).adx()] and
    [RSIIndicator(close, window).rsi()]. *)
Variable adx_indicator : list Q -> list Q -> list Q -> nat -> list fl.
Variable rsi_indicator : list Q -> nat -> list fl.

Definition calculate_technical_indicators (df : option (list Bar))
  : option (list Row) :=
  match df with
  | None => None
  | Some bars =>
      if (length bars <? 30)%nat then None
      else
        let c := map close bars in
        let adx := adx_indicator (map high bars) (map low bars) c 14 in
        let dif := series_sub (ewm_mean (span_alpha 12) c)
                              (ewm_mean (span_alpha 26) c) in
        let dea := ewm_mean (span_alpha 9) dif in
        let rsi := rsi_indicator c 14 in
        Some (map (fun p =>
                     {| bar := snd p;
                        ADX := column adx (fst p);
                        MACD_DIF := column (map Some dif) (fst p);
                        MACD_DEA := column (map Some dea) (fst p);
                        RSI := column rsi (fst p) |})
                  (combine (seq 0 (length bars)) bars))
  end.

End Indicators.

Definition evaluate_trend (df : option (list Row)) (code : string)
  : result (option Evaluation) :=
  match df with
  | None => Ok None
  | Some rows =>
      if (length rows <? 30)%nat then Ok None
      else
        latest <- iloc_neg rows 1 ;;
        let adx_value := ADX latest in
        let macd_status :=
          fgt (MACD_DIF latest) (Some 0) && fgt (MACD_DEA latest) (Some 0) in
        let rsi_value := RSI latest in
        let adx_score :=
          fmul (fdiv (py_min adx_value (Some 50)) (Some 50)) (Some 100) in
        let macd_score := if macd_status then Some 100 else Some 0 in
        let rsi_score :=
          py_max (Some 0)
                 (fmul (fdiv (fsub rsi_value (Some 50)) (Some 30)) (Some 100)) in
        let total :=
          fadd (fadd (fmul adx_score (Some (4 # 10)))
                     (fmul macd_score (Some (3 # 10))))
               (fmul rsi_score (Some (3 # 10))) in
        Ok (Some {| etf_code := code;
                    adx_value := py_round adx_value 2;
                    macd_status := macd_status;
                    rsi_value := py_round rsi_value 2;
                    total_score := py_round total 1 |})
  end.

(** [a] may stand before [b] in a frame sorted by score, descending, NaN
    scores last. *)
Definition score_before (a b : Evaluation) : bool :=
  match total_score a, total_score b with
  | Some x, Some y => Qle_bool y x
  | Some _, None => true
  | None, Some _ => false
  | None, None => true
  end.

Fixpoint insert_by_score (e : Evaluation) (l : list Evaluation)
  : list Evaluation :=
  match l with
  | [] => [e]
  | x :: r =>
      if score_before e x then e :: x :: r else x :: insert_by_score e r
  end.

(** [df.sort_values(score, ascending=False)].  pandas does not fix the order
    of rows of equal score; this sort keeps their input order. *)
Definition sort_values (rows : list Evaluation) : list Evaluation :=
  fold_right insert_by_score [] rows.

Section Batch.

Variable adx_indicator : list Q -> list Q -> list Q -> nat -> list fl.
Variable rsi_indicator : list Q -> nat -> list fl.

(** The data provider: [None] when the download fails or the frame has no
    close column. *)
Variable get_etf_data : string -> option (list Bar).

(** The [for] loop of [evaluate_multiple_etfs], [results] being the list
    built so far.  The message printed after a successful download reads
    [etf_data.index[0]] and [etf_data.index[-1]], which raises [IndexError]
    on a frame without rows. *)
Fixpoint evaluate_each (etf_codes : list string) (results : list Evaluation)
  : result (list Evaluation) :=
  match etf_codes with
  | [] => Ok results
  | code :: rest =>
      match get_etf_data code with
      | None => evaluate_each rest results
      | Some etf_data =>
          first_date <- index_first etf_data ;;
          last_date <- index_last etf_data ;;
          match calculate_technical_indicators
                  adx_indicator rsi_indicator (Some etf_data) with
          | None => evaluate_each rest results
          | Some etf_data =>
              evaluation <- evaluate_trend (Some etf_data) code ;;
              match evaluation with
              | Some ev => evaluate_each rest (results ++ [ev])
              | None => evaluate_each rest results
              end
          end
      end
  end.

Definition evaluate_multiple_etfs (etf_codes : list string)
  : result (option (list Evaluation)) :=
  results <- evaluate_each etf_codes [] ;;
  match results with
  | [] => Ok None
  | _ :: _ => Ok (Some (sort_values results))
  end.

End Batch.

End TrendEvaluation.

(** Reference notions used to state the properties of the trend scorer. *)

Module TrendSpec.

Import TrendEvaluation.

Definition qmin (x y : Q) : Q := if Qle_bool x y then x else y.

(** The sub-scores and the composite score as the specification gives them. *)
Definition spec_adx_score (adx : Q) : Q := qmin adx 50 / 50 * 100.


Definition spec_rsi_score (rsi : Q) : Q := qmax 0 ((rsi - 50) / 30 * 100).


(** An instrument whose download succeeds with at least 30 bars. *)
Definition successful (get_etf_data : string -> option (list Bar))
  (code : string) : bool :=
  match get_etf_data code with
  | Some bars => (30 <=? length bars)%nat
  | None => false
  end.

(** The record one instrument contributes to the batch, if any. *)
Definition record_of (adx : list Q -> list Q -> list Q -> nat -> list fl)
  (rsi : list Q -> nat -> list fl)
  (get_etf_data : string -> option (list Bar)) (code : string)
  : option Evaluation :=
  match get_etf_data code with
  | None => None
  | Some bars =>
      match calculate_technical_indicators adx rsi (Some bars) with
      | None => None
      | Some rows =>
          match evaluate_trend (Some rows) code with
          | Ok (Some ev) => Some ev
          | _ => None
          end
      end
  end.

Definition opt_list {A : Type} (o : option A) : list A :=
  match o with
  | Some a => [a]
  | None => []
  end.

(** The records of the successful instruments, in input order. *)
Definition successes (adx : list Q -> list Q -> list Q -> nat -> list fl)
  (rsi : list Q -> nat -> list fl)
  (get_etf_data : string -> option (list Bar)) (codes : list string)
  : list Evaluation :=
  flat_map (fun c => opt_list (record_of adx rsi get_etf_data c)) codes.

(** Descending order of the score column, NaN last. *)
Definition score_desc (a b : Evaluation) : Prop := score_before a b = true.

(** Sample frames: [n] quiet rows, then one row of given indicators. *)
Definition quiet_row : Row :=
  mkRow (mkBar 10 10 10) (Some 20) (Some 0) (Some 0) (Some 50).

Definition frame_ending (n : nat) (adx dif dea rsi : Q) : list Row :=
  repeat quiet_row n
  ++ [mkRow (mkBar 12 11 12) (Some adx) (Some dif) (Some dea) (Some rsi)].

(** Sample provider: three instruments, one failing, one too short. *)
Definition flat_history (n : nat) (p : Q) : list Bar := repeat (mkBar p p p) n.

(** Stand-ins for the two indicator parameters on sample frames: an "ADX"
    of five times the close and an "RSI" of twenty times the close. *)
Definition standin_adx (high low close : list Q) (window : nat) : list fl :=
  map (fun x => Some (x * 5)) close.

Definition standin_rsi (close : list Q) (window : nat) : list fl :=
  map (fun x => Some (x * 20)) close.

Definition sample_provider (code : string) : option (list Bar) :=
  if String.eqb code "510300" then Some (flat_history 40 4)
  else if String.eqb code "510500" then Some (flat_history 12 6)
  else if String.eqb code "588000" then Some (flat_history 35 1)
  else None.

(** [a] is at least [b] as a score: a defined score is at least any smaller
    or equal defined score, and any score is at least NaN. *)
Definition score_ge (a b : fl) : Prop :=
  match a, b with
  | Some x, Some y => y <= x
  | _, None => True
  | None, Some _ => False
  end.

(** A fetched frame has at least one row. *)
Definition has_rows (get_etf_data : string -> option (list Bar))
  (code : string) : Prop :=
  get_etf_data code <> Some [].


End TrendSpec.

(** ** Facts about the primitives *)

Module PyFacts.

Lemma dropna_defined (xs : list Q) : dropna (map Some xs) = xs.
Proof. induction xs; simpl; congruence. Qed.

Lemma tail_all {A : Type} (n : nat) (xs : list A) :
  (length xs <= n)%nat -> tail n xs = xs.
Proof.
  intros H. unfold tail.
  replace (length xs - n)%nat with 0%nat by lia. reflexivity.
Qed.

Lemma tail_length {A : Type} (n : nat) (xs : list A) :
  (n <= length xs)%nat -> length (tail n xs) = n.
Proof. intros H. unfold tail. rewrite length_skipn. lia. Qed.

Lemma tail_cons {A : Type} (n : nat) (x : A) (xs : list A) :
  (n <= length xs)%nat -> tail n (x :: xs) = tail n xs.
Proof.
  intros H. unfold tail. simpl length.
  replace (S (length xs) - n)%nat with (S (length xs - n)) by lia.
  reflexivity.
Qed.

Lemma tail_map {A B : Type} (f : A -> B) (n : nat) (xs : list A) :
  tail n (map f xs) = map f (tail n xs).
Proof. unfold tail. now rewrite length_map, skipn_map. Qed.

Lemma Forall_skipn {A : Type} (P : A -> Prop) (n : nat) (xs : list A) :
  Forall P xs -> Forall P (skipn n xs).
Proof.
  revert xs; induction n as [|n IH]; intros xs H; [exact H|].
  destruct xs as [|x xs]; [constructor|].
  simpl. apply IH. now inversion H.
Qed.

Lemma iloc_neg_last {A : Type} (xs : list A) :
  xs <> [] -> exists a, iloc_neg xs 1 = Ok a.
Proof.
  intros H. unfold iloc_neg.
  destruct xs as [|x xs]; [contradiction|].
  destruct (length (x :: xs) <? 1)%nat eqn:E.
  - apply Nat.ltb_lt in E. simpl in E. lia.
  - destruct (nth_error (x :: xs) (length (x :: xs) - 1)) eqn:N; [eauto|].
    apply nth_error_None in N. simpl in N. lia.
Qed.

Lemma iloc_neg_nth {A : Type} (xs : list A) (k : nat) (a : A) :
  (1 <= k <= length xs)%nat ->
  nth_error xs (length xs - k) = Some a ->
  iloc_neg xs k = Ok a.
Proof.
  intros [_ H] E. unfold iloc_neg.
  apply Nat.ltb_ge in H. now rewrite H, E.
Qed.

Lemma iloc_neg_ok {A : Type} (xs : list A) (k : nat) (a : A) :
  iloc_neg xs k = Ok a -> nth_error xs (length xs - k) = Some a.
Proof.
  unfold iloc_neg. destruct (length xs <? k)%nat; [discriminate|].
  destruct (nth_error xs (length xs - k)); [|discriminate].
  now intros [= ->].
Qed.

Lemma iloc_neg_defined {A : Type} (xs : list A) (k : nat) :
  (1 <= k <= length xs)%nat -> exists a, iloc_neg xs k = Ok a.
Proof.
  intros H. destruct (nth_error xs (length xs - k)) as [a|] eqn:E.
  - exists a. now apply iloc_neg_nth.
  - apply nth_error_None in E. lia.
Qed.

Lemma tail_nonempty {A : Type} (n : nat) (xs : list A) :
  (0 < n)%nat -> xs <> [] -> tail n xs <> [].
Proof.
  intros Hn Hx E. apply (f_equal (@length A)) in E.
  unfold tail in E. rewrite length_skipn in E.
  destruct xs; [contradiction|]. cbn [length] in E. lia.
Qed.

Lemma fgt_true (a b : fl) :
  fgt a b = true <-> exists x y, a = Some x /\ b = Some y /\ y < x.
Proof.
  unfold fgt. split.
  - destruct a as [x|], b as [y|]; try discriminate.
    intros H. exists x, y. repeat split.
    apply Qnot_le_lt. intros L. apply Qle_bool_iff in L.
    rewrite L in H. discriminate.
  - intros (x & y & -> & -> & H).
    destruct (Qle_bool x y) eqn:E; [|reflexivity].
    apply Qle_bool_iff in E. lra.
Qed.

Lemma dropna_mask (s : list fl) :
  length (dropna s) = length (filter negb (map isna s)).
Proof.
  induction s as [|[v|] s IH]; simpl; [reflexivity | now rewrite IH | exact IH].
Qed.

Lemma min_periods_mask_count (w n : nat) :
  length (filter negb (min_periods_mask w n)) = (n - (w - 1))%nat.
Proof.
  unfold min_periods_mask. induction n as [|n IH]; [reflexivity|].
  rewrite seq_S, map_app, filter_app, length_app, IH.
  cbn [map filter Nat.add].
  destruct (S n <? w)%nat eqn:E; cbn [negb length].
  - apply Nat.ltb_lt in E. lia.
  - apply Nat.ltb_ge in E. lia.
Qed.

Lemma min_periods_mask_length (w n : nat) : length (min_periods_mask w n) = n.
Proof. unfold min_periods_mask. now rewrite length_map, length_seq. Qed.

Lemma min_periods_mask_nth (w n i : nat) :
  (i < n)%nat -> nth_error (min_periods_mask w n) i = Some (S i <? w)%nat.
Proof.
  intros H. unfold min_periods_mask.
  rewrite nth_error_map, nth_error_seq.
  apply Nat.ltb_lt in H. now rewrite H.
Qed.

End PyFacts.

Import PyFacts.

(** ** Properties of [position_management.py] *)

Module PositionFacts.

Import PositionManagement PositionSpec.

Lemma trs_after_length pc bs : length (trs_after pc bs) = length bs.
Proof.
  revert pc; induction bs as [|b r IH]; intros pc; simpl; [reflexivity|].
  now rewrite IH.
Qed.

Lemma defined_trs_length df : length (defined_trs df) = pred (length df).
Proof. destruct df; simpl; [reflexivity | apply trs_after_length]. Qed.

Lemma true_range_rows r :
  forall pc,
    map (fun p => tr_row (fst p) (snd p))
        (combine r (map Some (removelast (pc :: map close r))))
    = map Some (trs_after pc r).
Proof.
  induction r as [|c r IH]; intros pc; [reflexivity|].
  change (map close (c :: r)) with (close c :: map close r).
  change (removelast (pc :: close c :: map close r))
    with (pc :: removelast (close c :: map close r)).
  cbn [map combine trs_after fst snd].
  f_equal. apply IH.
Qed.

(** The first true range is NaN, the others are defined. *)
Lemma true_range_shape (b : Bar) (r : DataFrame) :
  true_range (b :: r) = NaN :: map Some (trs_after (close b) r).
Proof.
  unfold true_range, shift1.
  change (map close (b :: r)) with (close b :: map close r).
  cbv iota. simpl combine. simpl map at 1.
  f_equal. apply (true_range_rows r (close b)).
Qed.

Lemma mean_defined (xs : list Q) :
  xs <> [] ->
  mean (map Some xs) = Some (qsum xs / inject_Z (Z.of_nat (length xs))).
Proof.
  intros H. unfold mean. rewrite dropna_defined.
  destruct xs; [contradiction | reflexivity].
Qed.

(** With exactly [ATR_PERIOD] bars the window holds one NaN and 13 samples. *)
Lemma latest_atr_exact (df : DataFrame) :
  length df = ATR_PERIOD ->
  latest_atr df = Some (qsum (defined_trs df) / 13).
Proof.
  intros H. destruct df as [|b r]; [discriminate|].
  unfold latest_atr. rewrite true_range_shape.
  rewrite tail_all by (simpl; rewrite length_map, trs_after_length;
                       simpl in H; unfold ATR_PERIOD in *; lia).
  unfold mean. simpl dropna. rewrite dropna_defined.
  assert (L : length (trs_after (close b) r) = 13%nat)
    by (rewrite trs_after_length; simpl in H; unfold ATR_PERIOD in H; lia).
  simpl defined_trs.
  destruct (trs_after (close b) r) as [|d ds] eqn:E; [discriminate|].
  rewrite L. reflexivity.
Qed.

(** With more bars the window holds [ATR_PERIOD] defined samples. *)
Lemma latest_atr_full (df : DataFrame) :
  (ATR_PERIOD < length df)%nat ->
  latest_atr df = Some (qsum (tail ATR_PERIOD (defined_trs df)) / 14).
Proof.
  intros H. destruct df as [|b r]; [simpl in H; lia|].
  unfold latest_atr. rewrite true_range_shape.
  assert (L : (ATR_PERIOD <= length (trs_after (close b) r))%nat)
    by (rewrite trs_after_length; simpl in H; lia).
  rewrite tail_cons by (now rewrite length_map).
  rewrite tail_map. simpl defined_trs.
  pose proof (tail_length ATR_PERIOD _ L) as T.
  rewrite mean_defined.
  - rewrite T. reflexivity.
  - intros E. rewrite E in T. discriminate.
Qed.

(** Every defined true range is non-negative, and so is the ATR. *)
Lemma qmax_r x y : y <= qmax x y.
Proof.
  unfold qmax. destruct (Qle_bool x y) eqn:E; [apply Qle_refl|].
  destruct (Qlt_le_dec y x) as [H|H]; [now apply Qlt_le_weak|].
  apply Qle_bool_iff in H. congruence.
Qed.

Lemma qmax_l x y : x <= qmax x y.
Proof.
  unfold qmax. destruct (Qle_bool x y) eqn:E; [|apply Qle_refl].
  now apply Qle_bool_iff.
Qed.

Lemma tr_q_nonneg b pc : 0 <= tr_q b pc.
Proof.
  unfold tr_q.
  eapply Qle_trans; [apply (Qabs_nonneg (high b - pc))|].
  eapply Qle_trans; [apply qmax_l | apply qmax_r].
Qed.

Lemma true_range_nonneg df : Forall fl_nonneg (true_range df).
Proof.
  destruct df as [|b r]; [constructor|].
  rewrite true_range_shape. constructor; [exact I|].
  generalize (close b). induction r as [|c r IH]; intros pc; simpl;
    constructor; [apply tr_q_nonneg | apply IH].
Qed.

Lemma dropna_nonneg xs : Forall fl_nonneg xs -> Forall (fun q => 0 <= q) (dropna xs).
Proof.
  induction 1 as [|x xs Hx _ IH]; simpl; [constructor|].
  destruct x; [constructor; assumption | assumption].
Qed.

Lemma qsum_nonneg xs : Forall (fun q => 0 <= q) xs -> 0 <= qsum xs.
Proof.
  induction 1 as [|x xs Hx _ IH]; simpl; [apply Qle_refl|].
  unfold qsum in IH. cbv beta in Hx.
  apply (Qle_trans _ (0 + 0)); [apply Qle_refl | now apply Qplus_le_compat].
Qed.

Lemma latest_atr_nonneg df a : latest_atr df = Some a -> 0 <= a.
Proof.
  unfold latest_atr, mean, tail. intros H.
  pose proof (dropna_nonneg _
    (Forall_skipn _ (length (true_range df) - ATR_PERIOD) _
       (true_range_nonneg df))) as F.
  destruct (dropna _) as [|d ds]; [discriminate|].
  injection H as <-.
  apply qsum_nonneg in F.
  apply Qle_shift_div_l.
  - change 0 with (inject_Z 0). rewrite <- Zlt_Qlt. simpl length. lia.
  - rewrite Qmult_0_l. exact F.
Qed.

Lemma Qeq_bool_double a : Qeq_bool (inject_Z ATR_MULTIPLIER * a) 0 = Qeq_bool a 0.
Proof.
  change (inject_Z ATR_MULTIPLIER) with 2.
  destruct (Qeq_bool a 0) eqn:E.
  - apply Qeq_bool_iff in E. apply Qeq_bool_iff. lra.
  - apply Qeq_bool_neq in E.
    destruct (Qeq_bool (2 * a) 0) eqn:F; [|reflexivity].
    apply Qeq_bool_iff in F. exfalso. apply E. lra.
Qed.

Lemma calculate_position_sized fetch code df a c :
  fetch code = Some df ->
  (ATR_PERIOD <= length df)%nat ->
  latest_atr df = Some a ->
  iloc_neg (map close df) 1 = Ok c ->
  calculate_position fetch code = sized code a c.
Proof.
  intros Hf Hl Ha Hc.
  unfold calculate_position, calculate_position_try, sized.
  rewrite Hf. apply Nat.ltb_ge in Hl. rewrite Hl, Hc, Ha. cbn [bind].
  destruct (Qle_bool c 0); [reflexivity|].
  unfold int_floordiv. rewrite Qeq_bool_double.
  destruct (Qeq_bool a 0); reflexivity.
Qed.

Lemma latest_atr_some df :
  (ATR_PERIOD <= length df)%nat -> exists a, latest_atr df = Some a.
Proof.
  intros H. destruct (Nat.eq_dec (length df) ATR_PERIOD) as [E|E].
  - rewrite (latest_atr_exact df E). eauto.
  - rewrite (latest_atr_full df) by lia. eauto.
Qed.

Lemma sized_some code a c r :
  sized code a c = Some r ->
  ~ c <= 0 /\ ~ a == 0 /\
  quantity r = Z.max 100 (Qfloor (150 / (2 * a)) / 100 * 100) /\
  atr_value r = round_q a 3 /\
  stop_loss_pct r = round_q (2 * a / c * 100) 2 /\
  max_loss r = round_q (2 * a * inject_Z (quantity r)) 2.
Proof.
  unfold sized. intros H.
  destruct (Qle_bool c 0) eqn:Ec; [discriminate|].
  destruct (Qeq_bool a 0) eqn:Ea; [discriminate|].
  injection H as <-. cbn.
  repeat split; try reflexivity.
  - intros L. apply Qle_bool_iff in L. congruence.
  - now apply Qeq_bool_neq.
Qed.


(** C3 as stated fails (counterexample): a flat frame of 14 bars at price 1
    has a defined ATR (zero) and a positive latest close, yet
    [calculate_position] recommends nothing: the floor division by
    [ATR_MULTIPLIER * ATR = 0] raises and the handler returns [None]. *)
Lemma C3_flat_frame_no_quantity :
  (exists a, latest_atr (flat_bars 14 1) = Some a) /\
  iloc_neg (map close (flat_bars 14 1)) 1 = Ok 1 /\
  0 < 1 /\
  forall r, calculate_position (fun _ => Some (flat_bars 14 1)) "588000" <> Some r.
Proof.
  split; [eexists; reflexivity|].
  split; [reflexivity|].
  split; [reflexivity|].
  intros r. vm_compute. discriminate.
Qed.

(** C3, amended: for every frame of at least [ATR_PERIOD] bars whose ATR is
    defined and not zero and whose latest close is positive,
    [calculate_position] returns a recommendation; its quantity is
    [floor(MAX_LOSS / (ATR_MULTIPLIER * ATR))] rounded down to a multiple of
    100 and raised to 100 if smaller, hence a positive multiple of 100; and
    the reported maximum loss is [(ATR_MULTIPLIER * ATR) * quantity], rounded
    to 2 decimals for display only. *)
Theorem C3_quantity_positive_lot_multiple fetch code df a c :
  fetch code = Some df ->
  (ATR_PERIOD <= length df)%nat ->
  latest_atr df = Some a ->
  iloc_neg (map close df) 1 = Ok c ->
  ~ a == 0 ->
  0 < c ->
  exists r raw k,
    calculate_position fetch code = Some r /\
    (inject_Z raw <= 150 / (2 * a) /\ 150 / (2 * a) < inject_Z raw + 1) /\
    (100 * k <= raw < 100 * k + 100)%Z /\
    quantity r = Z.max 100 (100 * k) /\
    (exists m, (0 < m)%Z /\ quantity r = (m * 100)%Z) /\
    max_loss r = round_q ((2 * a) * inject_Z (quantity r)) 2.
Proof.
  intros Hf Hl Ha Hc Hnz Hpos.
  rewrite (calculate_position_sized fetch code df a c Hf Hl Ha Hc).
  unfold sized.
  destruct (Qle_bool c 0) eqn:Ec;
    [apply Qle_bool_iff in Ec; exfalso; lra|].
  destruct (Qeq_bool a 0) eqn:Ea;
    [apply Qeq_bool_iff in Ea; contradiction|].
  set (raw := Qfloor (150 / (2 * a))).
  exists {| etf_code := code;
            latest_price := round_q c 3;
            atr_value := round_q a 3;
            quantity := Z.max 100 (raw / 100 * 100);
            stop_loss_pct := round_q (2 * a / c * 100) 2;
            max_loss := round_q (2 * a * inject_Z (Z.max 100 (raw / 100 * 100))) 2 |},
         raw, (raw / 100)%Z.
  cbn [quantity max_loss].
  split; [reflexivity|].
  split.
  { split; [apply Qfloor_le|].
    pose proof (Qlt_floor (150 / (2 * a))) as L. fold raw in L.
    rewrite inject_Z_plus in L. exact L. }
  pose proof (Z.div_mod raw 100 ltac:(lia)) as D.
  pose proof (Z.mod_pos_bound raw 100 ltac:(lia)) as B.
  split; [lia|].
  split; [f_equal; lia|].
  split; [|reflexivity].
  exists (Z.max 1 (raw / 100)). lia.
Qed.

Lemma C3_quantity_witness :
  exists r,
    calculate_position (fun _ => Some (ramp_bars 14)) "510300" = Some r /\
    quantity r = 300%Z.
Proof.
  destruct (C3_quantity_positive_lot_multiple
              (fun _ => Some (ramp_bars 14)) "510300" (ramp_bars 14)
              (qsum (defined_trs (ramp_bars 14)) / 13) (113 # 10))
    as (r & raw & k & Hr & _).
  - reflexivity.
  - unfold ATR_PERIOD. simpl. lia.
  - reflexivity.
  - reflexivity.
  - vm_compute. discriminate.
  - reflexivity.
  - exists r. split; [exact Hr|].
    vm_compute in Hr. injection Hr as <-. reflexivity.
Defined.







End PositionFacts.

(** ** Properties of [etf_risk_monitor.py] *)

Module RiskFacts.

Import RiskMonitor RiskSpec.

(** *** The arg-max of [idxmax] *)

(** No value of [xs] is defined. *)
Definition all_nan (xs : list fl) : Prop :=
  forall j u, nth_error xs j <> Some (Some u).

(** The invariant of the scan: [best] is the first arg-max of the rows seen. *)
Definition scanned (pre : list fl) (best : option (nat * Q)) : Prop :=
  match best with
  | None => all_nan pre
  | Some (k, m) =>
      nth_error pre k = Some (Some m) /\
      (forall j u, nth_error pre j = Some (Some u) -> u <= m) /\
      (forall j u, (j < k)%nat -> nth_error pre j = Some (Some u) -> u < m)
  end.

Lemma nth_error_snoc_cases {A : Type} (pre : list A) (x y : A) (j : nat) :
  nth_error (pre ++ [x]) j = Some y ->
  nth_error pre j = Some y \/ (j = length pre /\ y = x).
Proof.
  intros H. destruct (Nat.lt_ge_cases j (length pre)) as [L|G].
  - left. now rewrite nth_error_app1 in H.
  - right. rewrite nth_error_app2 in H by exact G.
    destruct (j - length pre)%nat as [|d] eqn:E.
    + simpl in H. injection H as <-. split; [lia | reflexivity].
    + simpl in H. destruct d; discriminate.
Qed.

Lemma nth_error_snoc_old {A : Type} (pre : list A) (x y : A) (j : nat) :
  nth_error pre j = Some y -> nth_error (pre ++ [x]) j = Some y.
Proof.
  intros H. rewrite nth_error_app1; [exact H|].
  apply nth_error_Some. congruence.
Qed.

Lemma nth_error_snoc_new {A : Type} (pre : list A) (x : A) :
  nth_error (pre ++ [x]) (length pre) = Some x.
Proof. rewrite nth_error_app2, Nat.sub_diag by lia. reflexivity. Qed.

Lemma scanned_nan pre best : scanned pre best -> scanned (pre ++ [NaN]) best.
Proof.
  destruct best as [[k m]|]; simpl.
  - intros (Hk & Hmax & Hfirst). split; [now apply nth_error_snoc_old|].
    split.
    + intros j u H.
      destruct (nth_error_snoc_cases _ _ _ _ H) as [H'|[_ H']];
        [eauto | discriminate].
    + intros j u Hj H.
      destruct (nth_error_snoc_cases _ _ _ _ H) as [H'|[_ H']];
        [eauto | discriminate].
  - intros Hn j u H.
    destruct (nth_error_snoc_cases _ _ _ _ H) as [H'|[_ H']];
      [now apply (Hn j u) | discriminate].
Qed.

Lemma scanned_first pre v :
  all_nan pre -> scanned (pre ++ [Some v]) (Some (length pre, v)).
Proof.
  intros Hn. simpl. split; [apply nth_error_snoc_new|]. split.
  - intros j u H.
    destruct (nth_error_snoc_cases _ _ _ _ H) as [H'|[_ H']].
    + now apply Hn in H'.
    + injection H' as ->. apply Qle_refl.
  - intros j u Hj H. exfalso.
    destruct (nth_error_snoc_cases _ _ _ _ H) as [H'|[E _]];
      [now apply Hn in H' | lia].
Qed.

Lemma scanned_keep pre k m v :
  v <= m -> scanned pre (Some (k, m)) -> scanned (pre ++ [Some v]) (Some (k, m)).
Proof.
  intros Hv (Hk & Hmax & Hfirst). simpl.
  split; [now apply nth_error_snoc_old|]. split.
  - intros j u H.
    destruct (nth_error_snoc_cases _ _ _ _ H) as [H'|[_ H']];
      [eauto | now injection H' as ->].
  - intros j u Hj H.
    destruct (nth_error_snoc_cases _ _ _ _ H) as [H'|[E _]]; [eauto|].
    exfalso. assert (k < length pre)%nat; [|lia].
    apply nth_error_Some. congruence.
Qed.

Lemma scanned_replace pre k m v :
  m < v -> scanned pre (Some (k, m)) ->
  scanned (pre ++ [Some v]) (Some (length pre, v)).
Proof.
  intros Hv (Hk & Hmax & Hfirst). simpl.
  split; [apply nth_error_snoc_new|]. split.
  - intros j u H.
    destruct (nth_error_snoc_cases _ _ _ _ H) as [H'|[_ H']].
    + apply Qlt_le_weak. eapply Qle_lt_trans; [eapply Hmax; eauto | exact Hv].
    + injection H' as ->. apply Qle_refl.
  - intros j u Hj H.
    destruct (nth_error_snoc_cases _ _ _ _ H) as [H'|[E _]]; [|lia].
    eapply Qle_lt_trans; [eapply Hmax; eauto | exact Hv].
Qed.

Lemma idxmax_from_scanned xs :
  forall pre best,
    scanned pre best ->
    match idxmax_from best (length pre) xs with
    | Some k => exists m, scanned (pre ++ xs) (Some (k, m))
    | None => all_nan (pre ++ xs)
    end.
Proof.
  induction xs as [|x xs IH]; intros pre best Hs.
  - rewrite app_nil_r. simpl.
    destruct best as [[k m]|]; simpl; [exists m|]; exact Hs.
  - replace (pre ++ x :: xs) with ((pre ++ [x]) ++ xs)
      by (now rewrite <- app_assoc).
    assert (L : S (length pre) = length (pre ++ [x]))
      by (rewrite length_app; simpl; lia).
    destruct x as [v|]; simpl idxmax_from.
    + destruct best as [[k m]|].
      * destruct (Qle_bool v m) eqn:E; rewrite L.
        -- apply IH. apply scanned_keep; [now apply Qle_bool_iff | exact Hs].
        -- apply IH. apply (scanned_replace pre k m v); [|exact Hs].
           apply Qnot_le_lt. intros H. apply Qle_bool_iff in H. congruence.
      * rewrite L. apply IH. now apply scanned_first.
    + rewrite L. apply IH. now apply scanned_nan.
Qed.

Lemma first_argmax_unique xs i j :
  first_argmax xs i -> first_argmax xs j -> i = j.
Proof.
  intros (v & Hv & Hmax & Hfirst) (w & Hw & Hmax' & Hfirst').
  destruct (Nat.lt_trichotomy i j) as [L|[E|L]]; [|exact E|]; exfalso.
  - pose proof (Hfirst' i v L Hv). pose proof (Hmax j w Hw). lra.
  - pose proof (Hfirst j w L Hw). pose proof (Hmax' i v Hv). lra.
Qed.

(** [idxmax] returns the first arg-max, or NaN when no value is defined. *)
Lemma idxmax_from_first_argmax xs k :
  idxmax_from None 0 xs = Some k <-> first_argmax xs k.
Proof.
  pose proof (idxmax_from_scanned xs [] None) as S.
  simpl in S.
  destruct (idxmax_from None 0 xs) as [i|] eqn:E.
  - destruct S as [m F]; [intros j u H; destruct j; discriminate|].
    assert (F' : first_argmax xs i) by (exists m; exact F).
    split.
    + intros H. injection H as <-. exact F'.
    + intros H. f_equal. eapply first_argmax_unique; eauto.
  - split; [discriminate|].
    intros (v & Hv & _). exfalso.
    refine (S _ k v Hv). intros j u H. destruct j; discriminate.
Qed.

Lemma label_eqb_first_argmax xs k :
  label_eqb (idxmax_from None 0 xs) k = true <-> first_argmax xs k.
Proof.
  rewrite <- idxmax_from_first_argmax.
  destruct (idxmax_from None 0 xs) as [i|]; simpl.
  - rewrite Nat.eqb_eq. split; congruence.
  - split; discriminate.
Qed.

(** The comparison of the two windows flags a price that closes on a new
    high while the oscillator does not. *)
Lemma top_divergence_new_high price osc :
  price <> [] -> osc <> [] ->
  exists b,
    top_divergence price osc = Ok b /\
    (b = true <-> new_high price /\ ~ new_high osc).
Proof.
  intros Hp Ho. unfold top_divergence, idxmax, index_last, new_high.
  destruct price as [|p price]; [contradiction|].
  destruct osc as [|o osc]; [contradiction|].
  cbn [bind].
  pose proof (label_eqb_first_argmax (p :: price) (length (p :: price) - 1)) as P.
  pose proof (label_eqb_first_argmax (o :: osc) (length (o :: osc) - 1)) as O.
  destruct (label_eqb (idxmax_from None 0 (p :: price)) _) eqn:EP.
  - destruct (label_eqb (idxmax_from None 0 (o :: osc)) _) eqn:EO;
      eexists; (split; [reflexivity|]); simpl.
    + split; [discriminate|]. intros [_ H]. exfalso. apply H. now apply O.
    + split; [|reflexivity]. intros _. split; [now apply P|].
      intros H. apply O in H. discriminate.
  - exists false. split; [reflexivity|].
    split; [discriminate|]. intros [H _]. apply P in H. discriminate.
Qed.

Lemma check_rsi_divergence_unfold rsi df :
  check_rsi_divergence rsi df
  = if (length df <? 19)%nat then Ok false
    else top_divergence (tail 5 (close_series df))
                        (tail 5 (rsi (closes df) RSI_PERIOD)).
Proof. reflexivity. Qed.

Lemma check_obv_divergence_unfold obv df :
  check_obv_divergence obv df
  = if (length df <? 10)%nat then Ok false
    else top_divergence (tail 5 (close_series df))
                        (tail 5 (obv (closes df) (volumes df))).
Proof. reflexivity. Qed.

Lemma close_series_length df : length (close_series df) = length df.
Proof. unfold close_series, closes. now rewrite !length_map. Qed.

Lemma nonempty_of_length {A : Type} (xs : list A) (n : nat) :
  length xs = n -> (0 < n)%nat -> xs <> [].
Proof. intros H L E. subst xs. simpl in H. lia. Qed.

(** C2 as stated fails (counterexample): on [tie_frame] the last close (5)
    ties the high of two bars earlier, and the on-balance volume peaked
    before the last bar.  With the last-occurrence tie-break of the claim the
    price arg-max is the last date and the flag would be set; [idxmax] takes
    the first occurrence and the check answers [False]. *)
Lemma C2_last_occurrence_tie_break_fails :
  length tie_frame = 10%nat /\
  spec_top_divergence
    (close_series tie_frame)
    (Ta.on_balance_volume (closes tie_frame) (volumes tie_frame)) = true /\
  check_obv_divergence Ta.on_balance_volume tie_frame = Ok false.
Proof. repeat split. Qed.

(** C2, amended: on a frame long enough for the check (19 bars for the RSI
    check, 10 bars for the OBV check), with the oscillator series aligned to
    it, the top-divergence flag is true if and only if the arg-max of the
    price over the last 5 dates is the last date and the arg-max of the
    oscillator over the same 5 dates is not, where the arg-max takes the
    first occurrence of the maximum, for price and oscillator alike: the last
    close must be strictly above the four closes before it. *)
Theorem C2_top_divergence_first_occurrence rsi obv df :
  ((RSI_PERIOD + 5 <= length df)%nat ->
   length (rsi (closes df) RSI_PERIOD) = length df ->
   exists b,
     check_rsi_divergence rsi df = Ok b /\
     (b = true <->
        first_argmax (tail 5 (close_series df)) 4 /\
        ~ first_argmax (tail 5 (rsi (closes df) RSI_PERIOD)) 4))
  /\
  ((10 <= length df)%nat ->
   length (obv (closes df) (volumes df)) = length df ->
   exists b,
     check_obv_divergence obv df = Ok b /\
     (b = true <->
        first_argmax (tail 5 (close_series df)) 4 /\
        ~ first_argmax (tail 5 (obv (closes df) (volumes df))) 4)).
Proof.
  assert (T : forall s : list fl,
             (5 <= length df)%nat -> length s = length df ->
             length (tail 5 s) = 5%nat)
    by (intros s H5 Hs; apply tail_length; lia).
  rewrite check_rsi_divergence_unfold, check_obv_divergence_unfold.
  split.
  - intros Hl Hr. unfold RSI_PERIOD in Hl.
    pose proof (T _ ltac:(lia) (close_series_length df)) as Tp.
    pose proof (T _ ltac:(lia) Hr) as Tr.
    assert (G : (length df <? 19)%nat = false) by (apply Nat.ltb_ge; lia).
    rewrite G.
    destruct (top_divergence_new_high
                (tail 5 (close_series df)) (tail 5 (rsi (closes df) RSI_PERIOD)))
      as (b & Hb & Hiff);
      try (eapply nonempty_of_length; [eassumption | lia]).
    exists b. split; [exact Hb|].
    unfold new_high in Hiff. now rewrite Tp, Tr in Hiff.
  - intros Hl Ho.
    pose proof (T _ ltac:(lia) (close_series_length df)) as Tp.
    pose proof (T _ ltac:(lia) Ho) as To.
    assert (G : (length df <? 10)%nat = false) by (apply Nat.ltb_ge; lia).
    rewrite G.
    destruct (top_divergence_new_high
                (tail 5 (close_series df)) (tail 5 (obv (closes df) (volumes df))))
      as (b & Hb & Hiff);
      try (eapply nonempty_of_length; [eassumption | lia]).
    exists b. split; [exact Hb|].
    unfold new_high in Hiff. now rewrite Tp, To in Hiff.
Qed.

Lemma C2_first_occurrence_witness :
  (exists b,
     check_obv_divergence Ta.on_balance_volume tie_frame = Ok b /\
     (b = true <->
        first_argmax (tail 5 (close_series tie_frame)) 4 /\
        ~ first_argmax
            (tail 5 (Ta.on_balance_volume (closes tie_frame)
                                          (volumes tie_frame))) 4))
  /\
  (exists b,
     check_rsi_divergence Ta.rsi_indicator (rising_frame 19) = Ok b /\
     (b = true <->
        first_argmax (tail 5 (close_series (rising_frame 19))) 4 /\
        ~ first_argmax
            (tail 5 (Ta.rsi_indicator (closes (rising_frame 19)) RSI_PERIOD)) 4)).
Proof.
  split.
  - destruct (C2_top_divergence_first_occurrence
                Ta.rsi_indicator Ta.on_balance_volume tie_frame) as [_ H].
    apply H.
    + simpl. lia.
    + reflexivity.
  - destruct (C2_top_divergence_first_occurrence
                Ta.rsi_indicator Ta.on_balance_volume (rising_frame 19))
      as [H _].
    apply H.
    + unfold RSI_PERIOD. simpl. lia.
    + reflexivity.
Defined.

(** C6 as stated fails (counterexample).  With the RSI window as required
    prior window the claimed minimum is [max(14, 5) = 14] points.  The rising
    frame of 18 bars has that many, its last close is a new high and its RSI
    stands at 100 on the last five dates, so the comparison of the two
    windows would flag a divergence; the RSI check does not reach it and
    answers [False].  And the two checks do not share one minimum: on a frame
    of 12 bars the OBV check proceeds and the RSI check does not. *)
Lemma C6_minimum_length_differs :
  (spec_min_points RSI_PERIOD <= length (rising_frame 18))%nat /\
  top_divergence (tail 5 (close_series (rising_frame 18)))
                 (tail 5 (Ta.rsi_indicator (closes (rising_frame 18)) RSI_PERIOD))
  = Ok true /\
  check_rsi_divergence Ta.rsi_indicator (rising_frame 18) = Ok false /\
  length thin_high_frame = 12%nat /\
  check_obv_divergence Ta.on_balance_volume thin_high_frame = Ok true /\
  check_rsi_divergence Ta.rsi_indicator thin_high_frame = Ok false.
Proof.
  split; [unfold spec_min_points, RSI_PERIOD; simpl; lia|].
  repeat split; vm_compute; reflexivity.
Qed.

(** C6, amended: the RSI divergence check answers [False] on fewer than
    [RSI_PERIOD + 5 = 19] points and the OBV divergence check on fewer than
    10 points; from that length on each check proceeds to the comparison of
    the last 5 dates.  The two minimum lengths are different. *)
Theorem C6_divergence_minimum_lengths rsi obv df :
  ((length df < RSI_PERIOD + 5)%nat -> check_rsi_divergence rsi df = Ok false) /\
  ((RSI_PERIOD + 5 <= length df)%nat ->
     check_rsi_divergence rsi df
     = top_divergence (tail 5 (close_series df))
                      (tail 5 (rsi (closes df) RSI_PERIOD))) /\
  ((length df < 10)%nat -> check_obv_divergence obv df = Ok false) /\
  ((10 <= length df)%nat ->
     check_obv_divergence obv df
     = top_divergence (tail 5 (close_series df))
                      (tail 5 (obv (closes df) (volumes df)))) /\
  (RSI_PERIOD + 5)%nat <> 10%nat.
Proof.
  rewrite check_rsi_divergence_unfold, check_obv_divergence_unfold.
  unfold RSI_PERIOD. repeat split.
  - intros H. apply Nat.ltb_lt in H. simpl in H. now rewrite H.
  - intros H. apply Nat.ltb_ge in H. simpl in H. now rewrite H.
  - intros H. apply Nat.ltb_lt in H. now rewrite H.
  - intros H. apply Nat.ltb_ge in H. now rewrite H.
  - simpl. lia.
Qed.

Lemma C6_minimum_lengths_witness :
  check_rsi_divergence Ta.rsi_indicator (rising_frame 18) = Ok false /\
  check_obv_divergence Ta.on_balance_volume (rising_frame 18)
  = top_divergence
      (tail 5 (close_series (rising_frame 18)))
      (tail 5 (Ta.on_balance_volume (closes (rising_frame 18))
                                    (volumes (rising_frame 18)))).
Proof.
  destruct (C6_divergence_minimum_lengths
              Ta.rsi_indicator Ta.on_balance_volume (rising_frame 18))
    as (A & _ & _ & B & _).
  split.
  - apply A. unfold RSI_PERIOD. simpl. lia.
  - apply B. simpl. lia.
Defined.

(** *** The death cross *)

Lemma check_ema_death_cross_short ema df :
  (length df < EMA_LONG + 1)%nat -> check_ema_death_cross ema df = Ok false.
Proof.
  intros H. unfold check_ema_death_cross.
  apply Nat.ltb_lt in H. now rewrite H.
Qed.

(** Past the length check the result is the comparison of the last two rows
    of the two averages. *)
Lemma check_ema_death_cross_compare ema df sp lp sn ln :
  (EMA_LONG + 1 <= length df)%nat ->
  iloc_neg (ema (closes df) EMA_SHORT) 2 = Ok sp ->
  iloc_neg (ema (closes df) EMA_LONG) 2 = Ok lp ->
  iloc_neg (ema (closes df) EMA_SHORT) 1 = Ok sn ->
  iloc_neg (ema (closes df) EMA_LONG) 1 = Ok ln ->
  check_ema_death_cross ema df = Ok (fgt sp lp && flt sn ln).
Proof.
  intros H H1 H2 H3 H4. unfold check_ema_death_cross.
  apply Nat.ltb_ge in H. rewrite H, H1, H2. cbn [bind].
  destruct (fgt sp lp); [|reflexivity].
  rewrite H3, H4. reflexivity.
Qed.

(** C4: on a frame long enough for the check to run (at least
    [EMA_LONG + 1 = 27] bars, the two averages aligned with the frame), the
    death-cross flag is true if and only if the short EMA was strictly above
    the long EMA at the second-to-last date and is strictly below it at the
    last date.  Consequently a frame whose short EMA is above the long EMA
    wherever both are defined is never flagged, whatever its length. *)
Theorem C4_death_cross_last_step ema df :
  length (ema (closes df) EMA_SHORT) = length df ->
  length (ema (closes df) EMA_LONG) = length df ->
  ((EMA_LONG + 1 <= length df)%nat ->
     (exists b, check_ema_death_cross ema df = Ok b) /\
     (check_ema_death_cross ema df = Ok true <->
      exists s2 l2 s1 l1 : Q,
        iloc_neg (ema (closes df) EMA_SHORT) 2 = Ok (Some s2) /\
        iloc_neg (ema (closes df) EMA_LONG) 2 = Ok (Some l2) /\
        iloc_neg (ema (closes df) EMA_SHORT) 1 = Ok (Some s1) /\
        iloc_neg (ema (closes df) EMA_LONG) 1 = Ok (Some l1) /\
        l2 < s2 /\ s1 < l1))
  /\
  ((forall i s l,
      nth_error (ema (closes df) EMA_SHORT) i = Some (Some s) ->
      nth_error (ema (closes df) EMA_LONG) i = Some (Some l) ->
      l < s) ->
   check_ema_death_cross ema df = Ok false).
Proof.
  intros As Al.
  assert (R : (EMA_LONG + 1 <= length df)%nat ->
              exists sp lp sn ln,
                iloc_neg (ema (closes df) EMA_SHORT) 2 = Ok sp /\
                iloc_neg (ema (closes df) EMA_LONG) 2 = Ok lp /\
                iloc_neg (ema (closes df) EMA_SHORT) 1 = Ok sn /\
                iloc_neg (ema (closes df) EMA_LONG) 1 = Ok ln /\
                check_ema_death_cross ema df = Ok (fgt sp lp && flt sn ln)).
  { intros H. unfold EMA_LONG in H.
    destruct (iloc_neg_defined (ema (closes df) EMA_SHORT) 2) as [sp H1]; [lia|].
    destruct (iloc_neg_defined (ema (closes df) EMA_LONG) 2) as [lp H2]; [lia|].
    destruct (iloc_neg_defined (ema (closes df) EMA_SHORT) 1) as [sn H3]; [lia|].
    destruct (iloc_neg_defined (ema (closes df) EMA_LONG) 1) as [ln H4]; [lia|].
    exists sp, lp, sn, ln. repeat (split; [assumption|]).
    now apply check_ema_death_cross_compare. }
  split.
  - intros H. destruct (R H) as (sp & lp & sn & ln & H1 & H2 & H3 & H4 & E).
    split; [eauto|]. rewrite E. split.
    + intros [= B]. apply andb_true_iff in B. destruct B as [B1 B2].
      apply fgt_true in B1. destruct B1 as (s2 & l2 & -> & -> & L2).
      unfold flt in B2. apply fgt_true in B2.
      destruct B2 as (l1 & s1 & -> & -> & L1).
      exists s2, l2, s1, l1. auto 10.
    + intros (s2 & l2 & s1 & l1 & E1 & E2 & E3 & E4 & L2 & L1).
      rewrite H1 in E1. rewrite H2 in E2. rewrite H3 in E3. rewrite H4 in E4.
      injection E1 as ->. injection E2 as ->.
      injection E3 as ->. injection E4 as ->.
      f_equal. apply andb_true_iff. split.
      * apply fgt_true. eauto.
      * unfold flt. apply fgt_true. eauto.
  - intros Above.
    destruct (Nat.lt_ge_cases (length df) (EMA_LONG + 1)) as [S|L];
      [now apply check_ema_death_cross_short|].
    destruct (R L) as (sp & lp & sn & ln & _ & _ & H3 & H4 & E).
    rewrite E. f_equal. apply andb_false_iff. right.
    destruct (flt sn ln) eqn:F; [exfalso | reflexivity].
    unfold flt in F. apply fgt_true in F. destruct F as (l & s & -> & -> & F).
    apply iloc_neg_ok in H3, H4. rewrite As in H3. rewrite Al in H4.
    pose proof (Above _ _ _ H3 H4). lra.
Qed.

Lemma C4_death_cross_witness :
  check_ema_death_cross Ta.ema_indicator (rising_frame 30) = Ok false.
Proof.
  apply (C4_death_cross_last_step Ta.ema_indicator (rising_frame 30)).
  - reflexivity.
  - reflexivity.
  - intros i s l Hs Hl.
    do 30 (destruct i as [|i];
           [vm_compute in Hs, Hl; try discriminate;
            injection Hs as <-; injection Hl as <-; reflexivity|]).
    destruct i; discriminate.
Defined.

(** *** The NaN gate of the moving averages *)

Lemma gated_length w n s : gated w n s -> length s = n.
Proof.
  intros G. apply (f_equal (@length bool)) in G.
  now rewrite length_map, min_periods_mask_length in G.
Qed.

Lemma gated_defined_points w n s :
  gated w n s -> defined_points s = (n - (w - 1))%nat.
Proof.
  intros G. unfold defined_points.
  now rewrite dropna_mask, G, min_periods_mask_count.
Qed.

Lemma gated_nth w n s i :
  gated w n s -> (i < n)%nat -> (w <= S i)%nat ->
  exists v, nth_error s i = Some (Some v).
Proof.
  intros G Hi Hw.
  pose proof (min_periods_mask_nth w n i Hi) as M.
  rewrite <- G, nth_error_map in M.
  apply Nat.ltb_ge in Hw. rewrite Hw in M.
  destruct (nth_error s i) as [[v|]|]; try discriminate. eauto.
Qed.

Lemma gated_iloc w n s k :
  gated w n s -> (1 <= k)%nat -> (1 <= w)%nat -> (w + k <= S n)%nat ->
  exists v, iloc_neg s k = Ok (Some v).
Proof.
  intros G Hk Hw1 Hw. pose proof (gated_length _ _ _ G) as L.
  destruct (gated_nth w n s (n - k) G) as [v Hv]; [lia | lia|].
  exists v. apply iloc_neg_nth; [lia|]. now rewrite L.
Qed.

(** C7: with the moving averages of [ta] (NaN on the first [window - 1]
    rows, defined afterwards), the death-cross check takes its
    not-applicable exit exactly when the two EMA series do not both have at
    least 2 defined points, and then answers [False]; whenever both have at
    least 2 defined points it compares the last two defined points of the
    two series. *)
Theorem C7_death_cross_needs_two_defined_points ema df :
  gated EMA_SHORT (length df) (ema (closes df) EMA_SHORT) ->
  gated EMA_LONG (length df) (ema (closes df) EMA_LONG) ->
  ((length df <? EMA_LONG + 1)%nat = true <->
     ~ ((2 <= defined_points (ema (closes df) EMA_SHORT))%nat /\
        (2 <= defined_points (ema (closes df) EMA_LONG))%nat))
  /\
  (~ ((2 <= defined_points (ema (closes df) EMA_SHORT))%nat /\
      (2 <= defined_points (ema (closes df) EMA_LONG))%nat) ->
   check_ema_death_cross ema df = Ok false)
  /\
  ((2 <= defined_points (ema (closes df) EMA_SHORT))%nat /\
   (2 <= defined_points (ema (closes df) EMA_LONG))%nat ->
   exists s2 l2 s1 l1 : Q,
     iloc_neg (ema (closes df) EMA_SHORT) 2 = Ok (Some s2) /\
     iloc_neg (ema (closes df) EMA_LONG) 2 = Ok (Some l2) /\
     iloc_neg (ema (closes df) EMA_SHORT) 1 = Ok (Some s1) /\
     iloc_neg (ema (closes df) EMA_LONG) 1 = Ok (Some l1) /\
     (check_ema_death_cross ema df = Ok true <-> l2 < s2 /\ s1 < l1) /\
     (check_ema_death_cross ema df = Ok false <-> ~ (l2 < s2 /\ s1 < l1))).
Proof.
  intros Gs Gl.
  rewrite (gated_defined_points _ _ _ Gs), (gated_defined_points _ _ _ Gl).
  unfold EMA_SHORT, EMA_LONG in *.
  assert (Gate : (length df <? 26 + 1)%nat = true <->
                 ~ ((2 <= length df - (12 - 1))%nat /\
                    (2 <= length df - (26 - 1))%nat)).
  { rewrite Nat.ltb_lt. lia. }
  split; [exact Gate|]. split.
  - intros H. apply Gate in H. apply Nat.ltb_lt in H.
    now apply check_ema_death_cross_short.
  - intros [_ H].
    destruct (gated_iloc _ _ _ 2 Gs) as [s2 H1]; [lia | lia | lia|].
    destruct (gated_iloc _ _ _ 2 Gl) as [l2 H2]; [lia | lia | lia|].
    destruct (gated_iloc _ _ _ 1 Gs) as [s1 H3]; [lia | lia | lia|].
    destruct (gated_iloc _ _ _ 1 Gl) as [l1 H4]; [lia | lia | lia|].
    exists s2, l2, s1, l1. repeat (split; [assumption|]).
    rewrite (check_ema_death_cross_compare ema df _ _ _ _
               ltac:(unfold EMA_LONG; lia) H1 H2 H3 H4).
    set (c := fgt (Some s2) (Some l2) && flt (Some s1) (Some l1)).
    assert (B : c = true <-> l2 < s2 /\ s1 < l1).
    { unfold c, flt. rewrite andb_true_iff, !fgt_true. split.
      - intros [(a & b & [= ->] & [= ->] & L2) (x & y & [= ->] & [= ->] & L1)].
        auto.
      - intros [L2 L1]. split; eauto 10. }
    destruct c.
    + split; split; try tauto; try discriminate.
    + split; split; try congruence.
      * intros H'. apply B in H'. discriminate.
      * intros _ H'. apply B in H'. discriminate.
Qed.

Lemma C7_two_defined_points_witness :
  check_ema_death_cross Ta.ema_indicator (peak_frame 27 6) = Ok true /\
  check_ema_death_cross Ta.ema_indicator (rising_frame 26) = Ok false.
Proof.
  split.
  - destruct (C7_death_cross_needs_two_defined_points
                Ta.ema_indicator (peak_frame 27 6)) as (_ & _ & H).
    + reflexivity.
    + reflexivity.
    + destruct H as (s2 & l2 & s1 & l1 & H1 & H2 & H3 & H4 & T & _).
      * split; vm_compute; lia.
      * apply T.
        vm_compute in H1, H2, H3, H4.
        injection H1 as <-. injection H2 as <-.
        injection H3 as <-. injection H4 as <-.
        split; reflexivity.
  - destruct (C7_death_cross_needs_two_defined_points
                Ta.ema_indicator (rising_frame 26)) as (_ & H & _).
    + reflexivity.
    + reflexivity.
    + apply H. intros [_ N]. vm_compute in N. lia.
Defined.

End RiskFacts.

(** ** Properties of [etf_trend_evaluation.py] *)

Module TrendFacts.

Import TrendEvaluation TrendSpec.

(** *** Display rounding *)



Lemma round_half_even_lower (m : Z) (y : Q) :
  inject_Z m <= y -> (m <= round_half_even y)%Z.
Proof.
  intros H. apply Qfloor_resp_le in H. rewrite Qfloor_Z in H.
  unfold round_half_even. destruct (Qcompare _ _).
  - destruct (Z.even (Qfloor y)); lia.
  - exact H.
  - lia.
Qed.

Lemma round_half_even_upper (M : Z) (y : Q) :
  y <= inject_Z M -> (round_half_even y <= M)%Z.
Proof.
  intros H.
  assert (F : (Qfloor y <= M)%Z)
    by (apply Qfloor_resp_le in H; now rewrite Qfloor_Z in H).
  assert (G : inject_Z (Qfloor y) < y -> (Qfloor y + 1 <= M)%Z).
  { intros L. assert (K : inject_Z (Qfloor y) < inject_Z M) by lra.
    rewrite <- Zlt_Qlt in K. lia. }
  unfold round_half_even.
  destruct (Qcompare (y - inject_Z (Qfloor y)) (1 # 2)) eqn:C.
  - apply Qeq_alt in C. destruct (Z.even (Qfloor y)); [exact F|].
    apply G. lra.
  - exact F.
  - apply Qgt_alt in C. apply G. lra.
Qed.

Lemma pow10_pos n : 0 < pow10 n.
Proof.
  unfold pow10. change 0 with (inject_Z 0). rewrite <- Zlt_Qlt.
  apply Z.pow_pos_nonneg; lia.
Qed.

(** Rounding keeps a value between two bounds that are themselves round. *)
Lemma round_q_between (m M : Z) (x : Q) (n : nat) :
  inject_Z m <= x * pow10 n -> x * pow10 n <= inject_Z M ->
  inject_Z m <= round_q x n * pow10 n /\ round_q x n * pow10 n <= inject_Z M.
Proof.
  intros L U. pose proof (pow10_pos n) as P.
  assert (E : round_q x n * pow10 n == inject_Z (round_half_even (x * pow10 n))).
  { unfold round_q. field. intros Z. rewrite Z in P. now apply Qlt_irrefl in P. }
  rewrite E.
  apply round_half_even_lower in L. apply round_half_even_upper in U.
  now rewrite <- !Zle_Qle.
Qed.

(** *** The score of the latest row *)

Lemma evaluate_trend_short rows code :
  (length rows < 30)%nat -> evaluate_trend (Some rows) code = Ok None.
Proof.
  intros H. unfold evaluate_trend. apply Nat.ltb_lt in H. now rewrite H.
Qed.

Lemma evaluate_trend_long rows code :
  (30 <= length rows)%nat ->
  exists ev, evaluate_trend (Some rows) code = Ok (Some ev) /\ etf_code ev = code.
Proof.
  intros H. unfold evaluate_trend.
  destruct (iloc_neg_defined rows 1) as [latest E]; [lia|].
  apply Nat.ltb_ge in H. rewrite H, E. cbn [bind].
  eexists. split; reflexivity.
Qed.

Lemma evaluate_trend_score rows code latest a r :
  (30 <= length rows)%nat ->
  iloc_neg rows 1 = Ok latest ->
  ADX latest = Some a ->
  RSI latest = Some r ->
  exists ev t,
    evaluate_trend (Some rows) code = Ok (Some ev) /\
    total_score ev = Some (round_q t 1) /\
    macd_status ev
    = fgt (MACD_DIF latest) (Some 0) && fgt (MACD_DEA latest) (Some 0) /\
    t == (4 # 10) * spec_adx_score a
         + (3 # 10) * (if macd_status ev then 100 else 0)
         + (3 # 10) * spec_rsi_score r.
Proof.
  intros H E Ha Hr. unfold evaluate_trend.
  apply Nat.ltb_ge in H. rewrite H, E. cbn [bind]. rewrite Ha, Hr.
  set (macd := fgt (MACD_DIF latest) (Some 0) && fgt (MACD_DEA latest) (Some 0)).
  unfold py_min, py_max, flt, fgt, fsub, fdiv, fmul, fadd, lift2.
  change (Qeq_bool 50 0) with false. change (Qeq_bool 30 0) with false.
  cbv iota. clearbody macd.
  set (x := (r - 50) / 30 * 100).
  assert (X : (if negb (Qle_bool x 0) then x else 0) == spec_rsi_score r).
  { unfold spec_rsi_score, qmax. fold x.
    destruct (Qle_bool x 0) eqn:E1; destruct (Qle_bool 0 x) eqn:E2;
      cbn [negb]; try reflexivity.
    - apply Qle_bool_iff in E1, E2. lra.
    - destruct (Qlt_le_dec x 0) as [L|L].
      + apply Qlt_le_weak, Qle_bool_iff in L. congruence.
      + apply Qle_bool_iff in L. congruence. }
  assert (A : (if negb (Qle_bool a 50) then 50 else a) == qmin a 50).
  { unfold qmin. destruct (Qle_bool a 50); reflexivity. }
  unfold spec_adx_score.
  destruct (Qle_bool a 50), macd, (Qle_bool x 0); cbn [negb] in *;
    (eexists; eexists; split; [reflexivity|]; split; [reflexivity|];
     split; [reflexivity|]); cbn [macd_status]; rewrite <- X, <- A; ring.
Qed.

Lemma scale_50 x : x / 50 * 100 == 2 * x.
Proof. field. Qed.

Lemma scale_30 x : (x - 50) / 30 * 100 == (10 # 3) * (x - 50).
Proof. field. Qed.

Lemma spec_adx_score_range a : 0 <= a -> 0 <= spec_adx_score a <= 100.
Proof.
  intros H. unfold spec_adx_score, qmin. rewrite scale_50.
  destruct (Qle_bool a 50) eqn:E.
  - apply Qle_bool_iff in E. lra.
  - lra.
Qed.

Lemma spec_rsi_score_range r :
  r <= 100 ->
  0 <= spec_rsi_score r /\ 3 * spec_rsi_score r <= 500 /\
  (r <= 80 -> spec_rsi_score r <= 100).
Proof.
  intros H. unfold spec_rsi_score, qmax.
  pose proof (scale_30 r) as X.
  set (x := (r - 50) / 30 * 100) in *. clearbody x.
  destruct (Qle_bool 0 x) eqn:E.
  - apply Qle_bool_iff in E. split; [lra | split; [lra | intros R; lra]].
  - split; [lra | split; [lra | intros R; lra]].
Qed.

(** C1 as stated fails (counterexample): a frame of 30 rows whose latest row
    has ADX 60, both MACD lines positive and RSI 100 (inside [0, 100]) scores
    120: the RSI sub-score [(100 - 50) / 30 * 100] is not capped at 100. *)
Lemma C1_score_above_100 :
  length (frame_ending 29 60 (1 # 2) (4 # 10) 100) = 30%nat /\
  exists ev,
    evaluate_trend (Some (frame_ending 29 60 (1 # 2) (4 # 10) 100)) "513100"
    = Ok (Some ev) /\
    rsi_value ev = Some 100.00 /\
    total_score ev = Some 120.0 /\
    100 < 120.0.
Proof.
  split; [reflexivity|]. eexists. split; [vm_compute; reflexivity|].
  cbn [rsi_value total_score]. repeat split.
Qed.

(** C1, amended: for every frame of at least 30 rows whose latest ADX is
    non-negative and whose latest RSI lies in [0, 100], [evaluate_trend]
    produces a score in [0, 120]; the score is at most 100 whenever the RSI
    is at most 80. *)
Theorem C1_score_range code rows latest a r :
  (30 <= length rows)%nat ->
  iloc_neg rows 1 = Ok latest ->
  ADX latest = Some a ->
  RSI latest = Some r ->
  0 <= a ->
  0 <= r ->
  r <= 100 ->
  exists ev s,
    evaluate_trend (Some rows) code = Ok (Some ev) /\
    total_score ev = Some s /\
    0 <= s /\ s <= 120 /\ (r <= 80 -> s <= 100).
Proof.
  intros Hl Hi Ha Hr A0 R0 R1.
  destruct (evaluate_trend_score rows code latest a r Hl Hi Ha Hr)
    as (ev & t & He & Hs & _ & Ht).
  exists ev, (round_q t 1). split; [exact He|]. split; [exact Hs|].
  pose proof (spec_adx_score_range a A0) as [X0 X1].
  pose proof (spec_rsi_score_range r R1) as (Y0 & Y1 & Y2).
  assert (M : 0 <= (if macd_status ev then 100 else 0) <= 100)
    by (destruct (macd_status ev); lra).
  assert (B : 0 <= t <= 120) by (rewrite Ht; lra).
  destruct (round_q_between 0 1200 t 1) as [L U];
    [change (pow10 1) with 10; change (inject_Z 0) with 0; lra
    |change (pow10 1) with 10; change (inject_Z 1200) with 1200; lra|].
  change (pow10 1) with 10 in L, U.
  change (inject_Z 0) with 0 in L. change (inject_Z 1200) with 1200 in U.
  split; [lra|]. split; [lra|].
  intros R80. specialize (Y2 R80).
  assert (B' : t <= 100) by (rewrite Ht; lra).
  destruct (round_q_between 0 1000 t 1) as [_ U'];
    [change (pow10 1) with 10; change (inject_Z 0) with 0; lra
    |change (pow10 1) with 10; change (inject_Z 1000) with 1000; lra|].
  change (pow10 1) with 10 in U'. change (inject_Z 1000) with 1000 in U'. lra.
Qed.

Lemma C1_score_range_witness :
  exists ev s,
    evaluate_trend (Some (frame_ending 29 33 (1 # 2) (-4 # 10) 71)) "510050"
    = Ok (Some ev) /\
    total_score ev = Some s /\
    0 <= s /\ s <= 120 /\ (71 <= 80 -> s <= 100).
Proof.
  apply (C1_score_range "510050" (frame_ending 29 33 (1 # 2) (-4 # 10) 71)
           (mkRow (mkBar 12 11 12) (Some 33) (Some (1 # 2)) (Some (-4 # 10))
                  (Some 71)) 33 71).
  - simpl. lia.
  - reflexivity.
  - reflexivity.
  - reflexivity.
  - vm_compute. discriminate.
  - vm_compute. discriminate.
  - vm_compute. discriminate.
Defined.

Lemma calculate_technical_indicators_short adx rsi bars :
  (length bars < 30)%nat ->
  calculate_technical_indicators adx rsi (Some bars) = None.
Proof.
  intros H. unfold calculate_technical_indicators.
  apply Nat.ltb_lt in H. now rewrite H.
Qed.

Lemma calculate_technical_indicators_long adx rsi bars :
  (30 <= length bars)%nat ->
  exists rows,
    calculate_technical_indicators adx rsi (Some bars) = Some rows /\
    length rows = length bars.
Proof.
  intros H. unfold calculate_technical_indicators.
  apply Nat.ltb_ge in H. rewrite H. eexists. split; [reflexivity|].
  rewrite length_map, length_combine, length_seq. apply Nat.min_id.
Qed.




(** *** Sorting by score *)

Lemma score_before_total a b : score_before a b = false -> score_before b a = true.
Proof.
  unfold score_before.
  destruct (total_score a) as [x|], (total_score b) as [y|];
    try discriminate; try reflexivity.
  intros H. apply Qle_bool_iff.
  destruct (Qlt_le_dec x y) as [L|L]; [now apply Qlt_le_weak|].
  apply Qle_bool_iff in L. congruence.
Qed.

Lemma score_desc_trans a b c : score_desc a b -> score_desc b c -> score_desc a c.
Proof.
  unfold score_desc, score_before.
  destruct (total_score a) as [x|], (total_score b) as [y|],
           (total_score c) as [z|]; try discriminate; try reflexivity.
  rewrite !Qle_bool_iff. intros; lra.
Qed.

Lemma insert_by_score_perm e l : Permutation (insert_by_score e l) (e :: l).
Proof.
  induction l as [|x r IH]; simpl; [apply Permutation_refl|].
  destruct (score_before e x); [apply Permutation_refl|].
  eapply perm_trans; [apply perm_skip, IH | apply perm_swap].
Qed.

Lemma sort_values_perm l : Permutation (sort_values l) l.
Proof.
  induction l as [|x r IH]; simpl; [constructor|].
  eapply perm_trans; [apply insert_by_score_perm | now apply perm_skip].
Qed.

Lemma insert_by_score_hd e x l :
  score_desc x e -> HdRel score_desc x l -> HdRel score_desc x (insert_by_score e l).
Proof.
  intros Hx Hl. destruct l as [|y r]; simpl; [now constructor|].
  destruct (score_before e y); constructor; [exact Hx|].
  now inversion Hl.
Qed.

Lemma insert_by_score_sorted e l :
  Sorted score_desc l -> Sorted score_desc (insert_by_score e l).
Proof.
  induction 1 as [|x r Hs IH Hh]; simpl; [repeat constructor|].
  destruct (score_before e x) eqn:E.
  - constructor; [now constructor | now constructor].
  - constructor; [exact IH|].
    apply insert_by_score_hd; [|exact Hh].
    now apply score_before_total.
Qed.

Lemma sort_values_sorted l : StronglySorted score_desc (sort_values l).
Proof.
  apply Sorted_StronglySorted; [exact score_desc_trans|].
  induction l as [|x r IH]; simpl; [constructor|].
  now apply insert_by_score_sorted.
Qed.

(** *** The batch *)

Section BatchFacts.

Variable adx : list Q -> list Q -> list Q -> nat -> list fl.
Variable rsi : list Q -> nat -> list fl.
Variable fetch : string -> option (list Bar).

Lemma record_of_some code ev :
  record_of adx rsi fetch code = Some ev ->
  etf_code ev = code /\
  exists bars rows,
    fetch code = Some bars /\ (30 <= length bars)%nat /\
    calculate_technical_indicators adx rsi (Some bars) = Some rows /\
    evaluate_trend (Some rows) code = Ok (Some ev).
Proof.
  unfold record_of. destruct (fetch code) as [bars|] eqn:F; [|discriminate].
  destruct (Nat.lt_ge_cases (length bars) 30) as [S|L].
  { now rewrite calculate_technical_indicators_short. }
  destruct (calculate_technical_indicators_long adx rsi bars L) as (rows & C & Len).
  rewrite C.
  destruct (evaluate_trend_long rows code ltac:(lia)) as (ev' & E & Hc).
  rewrite E. intros [= <-]. split; [exact Hc|].
  exists bars, rows. auto.
Qed.

Lemma record_of_successful code :
  successful fetch code = true <-> exists ev, record_of adx rsi fetch code = Some ev.
Proof.
  unfold successful, record_of.
  destruct (fetch code) as [bars|]; [|split; [discriminate | now intros [? ?]]].
  destruct (Nat.lt_ge_cases (length bars) 30) as [S|L].
  - rewrite calculate_technical_indicators_short by exact S.
    split; [|now intros [? ?]].
    intros H. apply Nat.leb_le in H. lia.
  - destruct (calculate_technical_indicators_long adx rsi bars L) as (rows & C & Len).
    rewrite C.
    destruct (evaluate_trend_long rows code ltac:(lia)) as (ev & E & _).
    rewrite E. split; [eauto | intros _; now apply Nat.leb_le].
Qed.

Lemma successes_codes codes :
  map etf_code (successes adx rsi fetch codes) = filter (successful fetch) codes.
Proof.
  induction codes as [|c r IH]; [reflexivity|].
  unfold successes in *. cbn [flat_map filter]. rewrite map_app, IH.
  pose proof (record_of_successful c) as S.
  destruct (record_of adx rsi fetch c) as [ev|] eqn:R.
  - destruct (record_of_some c ev R) as [Hc _].
    cbn [opt_list map app]. rewrite Hc.
    destruct (successful fetch c); [reflexivity|].
    destruct S as [_ S]. discriminate S. eauto.
  - cbn [opt_list map app].
    destruct (successful fetch c); [|reflexivity].
    destruct S as [S _]. destruct (S eq_refl). discriminate.
Qed.

(** On frames that all have rows, the loop skips the failed instruments and
    appends one record for each of the others; it does not raise. *)
Lemma evaluate_each_successes codes :
  (forall c, In c codes -> has_rows fetch c) ->
  forall results,
    evaluate_each adx rsi fetch codes results
    = Ok (results ++ successes adx rsi fetch codes).
Proof.
  induction codes as [|c r IH]; intros NE results.
  - simpl. now rewrite app_nil_r.
  - assert (NE' : forall c', In c' r -> has_rows fetch c')
      by (intros c' Hc'; apply NE; now right).
    pose proof (NE c (or_introl eq_refl)) as Hc. unfold has_rows in Hc.
    unfold successes. cbn [evaluate_each flat_map].
    fold (successes adx rsi fetch r). unfold record_of.
    destruct (fetch c) as [bars|]; [|now apply IH].
    destruct bars as [|b bars]; [congruence|].
    cbn [index_first index_last bind].
    destruct (calculate_technical_indicators adx rsi (Some (b :: bars)))
      as [rows|]; [|now apply IH].
    destruct (Nat.lt_ge_cases (length rows) 30) as [S|L].
    + rewrite (evaluate_trend_short rows c S). cbn [bind opt_list app].
      now apply IH.
    + destruct (evaluate_trend_long rows c L) as (ev & E & _).
      rewrite E. cbn [bind opt_list]. rewrite (IH NE').
      now rewrite <- app_assoc.
Qed.


End BatchFacts.

(** A batch of four instruments: the second cannot be downloaded and the
    third has 12 bars only; the two others come out by score, the last of
    the input first. *)
Example evaluate_multiple_etfs_sample :
  option_map (map (fun ev => (etf_code ev, total_score ev)))
    (match evaluate_multiple_etfs standin_adx standin_rsi sample_provider
             ["588000"; "159205"; "510500"; "510300"]%string with
     | Ok out => out
     | Raise _ => None
     end)
  = Some [("510300"%string, Some 46.0); ("588000"%string, Some 4.0)].
Proof. vm_compute. reflexivity. Qed.



End TrendFacts.

(** ** Further properties of [position_management.py] *)

Module PositionExtra.

Import PositionManagement PositionSpec PositionFacts TrendFacts.

(** A recommendation comes from a frame that passed every check. *)
Lemma calculate_position_inv fetch code r :
  calculate_position fetch code = Some r ->
  exists df a c,
    fetch code = Some df /\
    (ATR_PERIOD <= length df)%nat /\
    latest_atr df = Some a /\
    iloc_neg (map close df) 1 = Ok c /\
    sized code a c = Some r.
Proof.
  intros H.
  destruct (fetch code) as [df|] eqn:F.
  - destruct (Nat.lt_ge_cases (length df) ATR_PERIOD) as [S|L].
    + exfalso. unfold calculate_position, calculate_position_try in H.
      rewrite F in H. apply Nat.ltb_lt in S. rewrite S in H. discriminate.
    + destruct (latest_atr_some df L) as [a Ha].
      destruct (iloc_neg_last (map close df)) as [c Hc].
      { destruct df; [unfold ATR_PERIOD in L; simpl in L; lia | discriminate]. }
      exists df, a, c.
      rewrite (calculate_position_sized fetch code df a c F L Ha Hc) in H.
      auto.
  - exfalso. unfold calculate_position, calculate_position_try in H.
    rewrite F in H. discriminate.
Qed.

Lemma sized_positive code a c r :
  0 <= a -> sized code a c = Some r -> 0 < a /\ 0 < c.
Proof.
  intros A H. apply sized_some in H. destruct H as (Hc & Ha & _).
  split.
  - destruct (Qlt_le_dec 0 a) as [L|L]; [exact L|].
    exfalso. apply Ha. lra.
  - now apply Qnot_le_lt.
Qed.

Lemma round_q_nonneg x n : 0 <= x -> 0 <= round_q x n.
Proof.
  intros H. pose proof (pow10_pos n) as P.
  destruct (round_q_between 0 (Qceiling (x * pow10 n)) x n) as [L _].
  - change (inject_Z 0) with 0. apply Qmult_le_0_compat; lra.
  - apply Qle_ceiling.
  - change (inject_Z 0) with 0 in L.
    destruct (Qlt_le_dec (round_q x n) 0) as [N|N]; [|exact N].
    exfalso. assert (round_q x n * pow10 n < 0 * pow10 n)
      by (apply Qmult_lt_compat_r; assumption).
    lra.
Qed.

Lemma stop_nonneg a c : 0 < a -> 0 < c -> 0 <= 2 * a / c * 100.
Proof.
  intros A C. apply Qmult_le_0_compat; [|lra].
  apply Qle_shift_div_l; [exact C | lra].
Qed.

(** X1: every recommendation rests on a strictly positive ATR and a strictly
    positive close, recommends at least one lot, and reports a non-negative
    price, ATR, stop-loss percentage and maximum loss; this holds also when
    the bars of the provider violate [high >= low]. *)
Theorem X1_recommendation_is_positive fetch code r :
  calculate_position fetch code = Some r ->
  (exists df a c,
     fetch code = Some df /\ latest_atr df = Some a /\
     iloc_neg (map close df) 1 = Ok c /\ 0 < a /\ 0 < c) /\
  (100 <= quantity r)%Z /\
  0 <= latest_price r /\ 0 <= atr_value r /\
  0 <= stop_loss_pct r /\ 0 <= max_loss r.
Proof.
  intros H.
  destruct (calculate_position_inv fetch code r H)
    as (df & a & c & F & L & Ha & Hc & S).
  destruct (sized_positive code a c r (latest_atr_nonneg df a Ha) S) as [A C].
  split; [exists df, a, c; auto 10|].
  unfold sized in S.
  destruct (Qle_bool c 0); [discriminate|].
  destruct (Qeq_bool a 0); [discriminate|].
  injection S as <-. cbn.
  split; [lia|].
  split; [apply round_q_nonneg; lra|].
  split; [apply round_q_nonneg; lra|].
  split; [apply round_q_nonneg, stop_nonneg; assumption|].
  apply round_q_nonneg.
  apply Qmult_le_0_compat; [lra|].
  change 0 with (inject_Z 0). rewrite <- Zle_Qle. lia.
Qed.

Lemma X1_recommendation_witness :
  exists r,
    calculate_position (fun _ => Some (ramp_bars 20)) "588200" = Some r /\
    (100 <= quantity r)%Z.
Proof.
  destruct (calculate_position (fun _ => Some (ramp_bars 20)) "588200")
    as [r|] eqn:E; [|vm_compute in E; discriminate].
  exists r. split; [reflexivity|].
  apply (X1_recommendation_is_positive
           (fun _ => Some (ramp_bars 20)) "588200" r E).
Defined.

Lemma raw_quantity_bounds a :
  0 < a ->
  (a <= 3 # 4 -> (100 <= Qfloor (150 / (2 * a)))%Z) /\
  (3 # 4 < a -> (0 <= Qfloor (150 / (2 * a)) < 100)%Z) /\
  inject_Z (Qfloor (150 / (2 * a))) * (2 * a) <= 150.
Proof.
  intros A. split; [|split].
  - intros H. rewrite <- (Qfloor_Z 100). apply Qfloor_resp_le.
    change (inject_Z 100) with 100. apply Qle_shift_div_l; lra.
  - intros H. split.
    + rewrite <- (Qfloor_Z 0). apply Qfloor_resp_le.
      change (inject_Z 0) with 0. apply Qle_shift_div_l; lra.
    + rewrite Zlt_Qlt. eapply Qle_lt_trans; [apply Qfloor_le|].
      change (inject_Z 100) with 100. apply Qlt_shift_div_r; lra.
  - assert (E : 150 / (2 * a) * (2 * a) == 150) by (field; lra).
    rewrite <- E at 2. apply Qmult_le_compat_r; [apply Qfloor_le | lra].
Qed.

(** X2: the loss budget of 150 is kept exactly when the ATR is at most 0.75:
    then [ATR_MULTIPLIER * ATR * quantity <= MAX_LOSS_PER_ETF]; with a larger
    ATR the recommendation is the minimum lot of 100 and its loss estimate
    exceeds the budget. *)
Theorem X2_budget_kept_up_to_atr_075 fetch code df a r :
  fetch code = Some df ->
  latest_atr df = Some a ->
  calculate_position fetch code = Some r ->
  (a <= 3 # 4 -> 2 * a * inject_Z (quantity r) <= 150) /\
  (3 # 4 < a -> quantity r = 100%Z /\ 150 < 2 * a * inject_Z (quantity r)).
Proof.
  intros F Ha H.
  destruct (calculate_position_inv fetch code r H)
    as (df' & a' & c & F' & L & Ha' & Hc & S).
  rewrite F in F'. injection F' as <-. rewrite Ha in Ha'. injection Ha' as <-.
  destruct (sized_positive code a c r (latest_atr_nonneg df a Ha) S) as [A C].
  apply sized_some in S. destruct S as (_ & _ & Q & _).
  destruct (raw_quantity_bounds a A) as (Lo & Hi & B).
  set (raw := Qfloor (150 / (2 * a))) in *.
  pose proof (Z.div_mod raw 100 ltac:(lia)) as D.
  pose proof (Z.mod_pos_bound raw 100 ltac:(lia)) as M.
  split.
  - intros H34. specialize (Lo H34).
    assert (E : (quantity r <= raw)%Z) by (rewrite Q; lia).
    rewrite Zle_Qle in E.
    eapply Qle_trans; [|exact B].
    rewrite (Qmult_comm (2 * a)). apply Qmult_le_compat_r; [exact E | lra].
  - intros H34. specialize (Hi H34).
    assert (E : quantity r = 100%Z).
    { rewrite Q. replace (raw / 100)%Z with 0%Z; [reflexivity|].
      symmetry. apply Z.div_small. lia. }
    split; [exact E|]. rewrite E. change (inject_Z 100) with 100. lra.
Qed.

Lemma X2_budget_witness :
  exists r,
    calculate_position (fun _ => Some (ramp_bars 14)) "510300" = Some r /\
    2 * (1 # 5) * inject_Z (quantity r) <= 150.
Proof.
  destruct (calculate_position (fun _ => Some (ramp_bars 14)) "510300")
    as [r|] eqn:E; [|vm_compute in E; discriminate].
  exists r. split; [reflexivity|].
  destruct (X2_budget_kept_up_to_atr_075
              (fun _ => Some (ramp_bars 14)) "510300" (ramp_bars 14)
              (qsum (defined_trs (ramp_bars 14)) / 13) r eq_refl eq_refl E)
    as [K _].
  assert (G : qsum (defined_trs (ramp_bars 14)) / 13 <= 3 # 4)
    by (vm_compute; discriminate).
  specialize (K G).
  assert (Eq : qsum (defined_trs (ramp_bars 14)) / 13 == 1 # 5)
    by (vm_compute; reflexivity).
  now rewrite Eq in K.
Defined.

(** X3: the recommended quantity never grows with the ATR: of two
    recommendations, the one computed from the larger ATR has the smaller or
    equal quantity. *)
Theorem X3_quantity_antitone_in_atr
  fetch code1 code2 df1 df2 a1 a2 r1 r2 :
  fetch code1 = Some df1 ->
  fetch code2 = Some df2 ->
  latest_atr df1 = Some a1 ->
  latest_atr df2 = Some a2 ->
  calculate_position fetch code1 = Some r1 ->
  calculate_position fetch code2 = Some r2 ->
  a1 <= a2 ->
  (quantity r2 <= quantity r1)%Z.
Proof.
  intros F1 F2 A1 A2 H1 H2 Le.
  destruct (calculate_position_inv fetch code1 r1 H1)
    as (d1 & b1 & c1 & G1 & _ & B1 & _ & S1).
  destruct (calculate_position_inv fetch code2 r2 H2)
    as (d2 & b2 & c2 & G2 & _ & B2 & _ & S2).
  rewrite F1 in G1. injection G1 as <-. rewrite A1 in B1. injection B1 as <-.
  rewrite F2 in G2. injection G2 as <-. rewrite A2 in B2. injection B2 as <-.
  destruct (sized_positive code1 a1 c1 r1 (latest_atr_nonneg df1 a1 A1) S1) as [P1 _].
  destruct (sized_positive code2 a2 c2 r2 (latest_atr_nonneg df2 a2 A2) S2) as [P2 _].
  apply sized_some in S1, S2.
  destruct S1 as (_ & _ & Q1 & _). destruct S2 as (_ & _ & Q2 & _).
  rewrite Q1, Q2.
  assert (M : (Qfloor (150 / (2 * a2)) <= Qfloor (150 / (2 * a1)))%Z).
  { apply Qfloor_resp_le. apply Qle_shift_div_l; [lra|].
    assert (E : 150 / (2 * a2) * (2 * a2) == 150) by (field; lra).
    rewrite <- E at 2.
    rewrite !(Qmult_comm (150 / (2 * a2))).
    apply Qmult_le_compat_r; [lra|].
    apply Qle_shift_div_l; lra. }
  apply Z.max_le_compat_l, Z.mul_le_mono_nonneg_r; [lia|].
  apply Z.div_le_mono; [lia | exact M].
Qed.

Lemma X3_quantity_witness :
  exists r1 r2,
    calculate_position
      (fun c => if String.eqb c "510300" then Some (ramp_bars 14)
                else Some (map (fun b => mkBar (high b + 1) (low b) (close b))
                               (ramp_bars 14))) "510300" = Some r1 /\
    calculate_position
      (fun c => if String.eqb c "510300" then Some (ramp_bars 14)
                else Some (map (fun b => mkBar (high b + 1) (low b) (close b))
                               (ramp_bars 14))) "510500" = Some r2 /\
    (quantity r2 <= quantity r1)%Z.
Proof.
  set (fetch := fun c : string =>
                  if String.eqb c "510300" then Some (ramp_bars 14)
                  else Some (map (fun b => mkBar (high b + 1) (low b) (close b))
                                 (ramp_bars 14))).
  destruct (calculate_position fetch "510300") as [r1|] eqn:E1;
    [|vm_compute in E1; discriminate].
  destruct (calculate_position fetch "510500") as [r2|] eqn:E2;
    [|vm_compute in E2; discriminate].
  exists r1, r2. split; [reflexivity|]. split; [reflexivity|].
  apply (X3_quantity_antitone_in_atr fetch "510300" "510500"
           (ramp_bars 14)
           (map (fun b => mkBar (high b + 1) (low b) (close b)) (ramp_bars 14))
           _ _ r1 r2 eq_refl eq_refl eq_refl eq_refl E1 E2).
  vm_compute. discriminate.
Defined.

(** *** Bounded look-back *)

Lemma trs_after_skipn k :
  forall pc r,
    (k < length r)%nat ->
    defined_trs (skipn k r) = skipn (S k) (trs_after pc r).
Proof.
  induction k as [|k IH]; intros pc r H; destruct r as [|c r];
    try (simpl in H; lia).
  - reflexivity.
  - simpl in H. change (skipn (S k) (c :: r)) with (skipn k r).
    cbn [trs_after]. change (skipn (S (S k)) (tr_q c pc :: trs_after (close c) r))
      with (skipn (S k) (trs_after (close c) r)).
    apply IH. lia.
Qed.

Lemma defined_trs_skipn k df :
  (k < length df)%nat -> defined_trs (skipn k df) = skipn k (defined_trs df).
Proof.
  intros H. destruct k as [|k]; [reflexivity|].
  destruct df as [|b r]; [simpl in H; lia|].
  change (skipn (S k) (b :: r)) with (skipn k r). cbn [defined_trs].
  apply trs_after_skipn. simpl in H. lia.
Qed.

Lemma defined_trs_tail n df :
  (n < length df)%nat -> defined_trs (tail (S n) df) = tail n (defined_trs df).
Proof.
  intros H. unfold tail. rewrite defined_trs_length.
  replace (pred (length df) - n)%nat with (length df - S n)%nat by lia.
  apply defined_trs_skipn. lia.
Qed.

Lemma iloc_neg_tail {A : Type} (n : nat) (xs : list A) :
  (1 <= n)%nat -> iloc_neg (tail n xs) 1 = iloc_neg xs 1.
Proof.
  intros Hn. destruct (Nat.le_gt_cases (length xs) n) as [S|L].
  - now rewrite tail_all.
  - unfold iloc_neg. rewrite (tail_length n xs) by lia.
    unfold tail. rewrite nth_error_skipn.
    replace (length xs - n + (n - 1))%nat with (length xs - 1)%nat by lia.
    assert (E1 : (n <? 1)%nat = false) by (apply Nat.ltb_ge; lia).
    assert (E2 : (length xs <? 1)%nat = false) by (apply Nat.ltb_ge; lia).
    now rewrite E1, E2.
Qed.

Lemma calculate_position_ext fetch1 fetch2 code :
  fetch1 code = fetch2 code ->
  calculate_position fetch1 code = calculate_position fetch2 code.
Proof.
  intros H. unfold calculate_position, calculate_position_try. now rewrite H.
Qed.

(** X4: the recommendation depends on the last 15 bars only: cutting the
    frame down to its last [ATR_PERIOD + 1] bars changes nothing in the
    result of [calculate_position]. *)
Theorem X4_position_looks_back_15_bars fetch1 fetch2 code df :
  fetch1 code = Some df ->
  fetch2 code = Some (tail (S ATR_PERIOD) df) ->
  calculate_position fetch1 code = calculate_position fetch2 code.
Proof.
  intros F1 F2.
  destruct (Nat.le_gt_cases (length df) (S ATR_PERIOD)) as [S|L].
  { apply calculate_position_ext. rewrite F1, F2. now rewrite tail_all. }
  assert (T : length (tail (S ATR_PERIOD) df) = S ATR_PERIOD)
    by (apply tail_length; lia).
  destruct (iloc_neg_last (map close df)) as [c Hc].
  { destruct df; [simpl in L; lia | discriminate]. }
  assert (Hc' : iloc_neg (map close (tail (S ATR_PERIOD) df)) 1 = Ok c).
  { rewrite <- tail_map, iloc_neg_tail; [exact Hc | lia]. }
  pose proof (latest_atr_full df ltac:(lia)) as A1.
  pose proof (latest_atr_full (tail (S ATR_PERIOD) df) ltac:(lia)) as A2.
  rewrite (defined_trs_tail ATR_PERIOD df ltac:(lia)) in A2.
  rewrite (tail_all ATR_PERIOD (tail ATR_PERIOD (defined_trs df))) in A2.
  2:{ rewrite tail_length; [lia|]. rewrite defined_trs_length. lia. }
  rewrite (calculate_position_sized fetch1 code df _ c F1 ltac:(lia) A1 Hc).
  rewrite (calculate_position_sized fetch2 code _ _ c F2 ltac:(lia) A2 Hc').
  reflexivity.
Qed.

Lemma X4_look_back_witness :
  calculate_position (fun _ => Some (ramp_bars 40)) "159205"
  = calculate_position (fun _ => Some (tail 15 (ramp_bars 40))) "159205".
Proof.
  apply (X4_position_looks_back_15_bars
           (fun _ => Some (ramp_bars 40))
           (fun _ => Some (tail 15 (ramp_bars 40))) "159205" (ramp_bars 40));
    reflexivity.
Defined.

(** *** Display rounding *)

Lemma round_half_even_error y :
  - (1 # 2) <= inject_Z (round_half_even y) - y /\
  inject_Z (round_half_even y) - y <= 1 # 2.
Proof.
  pose proof (Qfloor_le y) as Lo. pose proof (Qlt_floor y) as Hi.
  rewrite inject_Z_plus in Hi. change (inject_Z 1) with 1 in Hi.
  unfold round_half_even.
  destruct (Qcompare (y - inject_Z (Qfloor y)) (1 # 2)) eqn:C.
  - apply Qeq_alt in C.
    destruct (Z.even (Qfloor y)).
    + split; lra.
    + rewrite inject_Z_plus. change (inject_Z 1) with 1. split; lra.
  - apply Qlt_alt in C. split; lra.
  - apply Qgt_alt in C. rewrite inject_Z_plus. change (inject_Z 1) with 1.
    split; lra.
Qed.

Lemma round_q_error x n :
  - (1 # 2) <= (round_q x n - x) * pow10 n /\
  (round_q x n - x) * pow10 n <= 1 # 2.
Proof.
  pose proof (pow10_pos n) as P.
  assert (E : (round_q x n - x) * pow10 n
              == inject_Z (round_half_even (x * pow10 n)) - x * pow10 n).
  { unfold round_q. field. intros Z. rewrite Z in P. now apply Qlt_irrefl in P. }
  rewrite E. apply round_half_even_error.
Qed.

(** X5: display rounding moves no reported number by more than half a unit
    of its last digit: the price and the ATR (3 decimals) by at most 0.0005,
    the stop-loss percentage and the maximum loss (2 decimals) by at most
    0.005 from the exact [close], [ATR], [2 * ATR / close * 100] and
    [2 * ATR * quantity]. *)
Theorem X5_reported_values_within_half_unit fetch code df a c r :
  fetch code = Some df ->
  latest_atr df = Some a ->
  iloc_neg (map close df) 1 = Ok c ->
  calculate_position fetch code = Some r ->
  (- (1 # 2000) <= latest_price r - c /\ latest_price r - c <= 1 # 2000) /\
  (- (1 # 2000) <= atr_value r - a /\ atr_value r - a <= 1 # 2000) /\
  (- (1 # 200) <= stop_loss_pct r - 2 * a / c * 100 /\
   stop_loss_pct r - 2 * a / c * 100 <= 1 # 200) /\
  (- (1 # 200) <= max_loss r - 2 * a * inject_Z (quantity r) /\
   max_loss r - 2 * a * inject_Z (quantity r) <= 1 # 200).
Proof.
  intros F Ha Hc H.
  destruct (calculate_position_inv fetch code r H)
    as (df' & a' & c' & F' & L & Ha' & Hc' & S).
  rewrite F in F'. injection F' as <-. rewrite Ha in Ha'. injection Ha' as <-.
  rewrite Hc in Hc'. injection Hc' as <-.
  assert (P : latest_price r = round_q c 3).
  { unfold sized in S.
    destruct (Qle_bool c 0); [discriminate|].
    destruct (Qeq_bool a 0); [discriminate|].
    now injection S as <-. }
  apply sized_some in S. destruct S as (_ & _ & _ & A & St & M).
  rewrite P, A, St, M.
  set (s := 2 * a / c * 100). set (m := 2 * a * inject_Z (quantity r)).
  pose proof (round_q_error c 3) as [E1 E1'].
  pose proof (round_q_error a 3) as [E2 E2'].
  pose proof (round_q_error s 2) as [E3 E3'].
  pose proof (round_q_error m 2) as [E4 E4'].
  change (pow10 3) with 1000 in E1, E1', E2, E2'.
  change (pow10 2) with 100 in E3, E3', E4, E4'.
  set (rc := round_q c 3) in *. set (ra := round_q a 3) in *.
  set (rs := round_q s 2) in *. set (rm := round_q m 2) in *.
  clearbody rc ra rs rm s m.
  split; [split; lra|]. split; [split; lra|]. split; split; lra.
Qed.

Lemma X5_rounding_witness :
  exists r,
    calculate_position (fun _ => Some (ramp_bars 14)) "510300" = Some r /\
    - (1 # 200) <= stop_loss_pct r - 2 * (1 # 5) / (113 # 10) * 100.
Proof.
  destruct (calculate_position (fun _ => Some (ramp_bars 14)) "510300")
    as [r|] eqn:E; [|vm_compute in E; discriminate].
  exists r. split; [reflexivity|].
  destruct (X5_reported_values_within_half_unit
              (fun _ => Some (ramp_bars 14)) "510300" (ramp_bars 14)
              (qsum (defined_trs (ramp_bars 14)) / 13) (113 # 10) r
              eq_refl eq_refl eq_refl E) as (_ & _ & [K _] & _).
  assert (Eq : 2 * (qsum (defined_trs (ramp_bars 14)) / 13) / (113 # 10) * 100
               == 2 * (1 # 5) / (113 # 10) * 100)
    by (vm_compute; reflexivity).
  now rewrite Eq in K.
Defined.

(** *** The batch of [main] *)

Section MainFacts.

Variable fetch : string -> option DataFrame.

Lemma collect_positions_flat_map codes :
  forall results,
    collect_positions fetch codes results
    = results ++ flat_map (fun c => match calculate_position fetch c with
                                    | Some p => [p]
                                    | None => []
                                    end) codes.
Proof.
  induction codes as [|c r IH]; intros results; simpl.
  - now rewrite app_nil_r.
  - destruct (calculate_position fetch c); rewrite IH.
    + now rewrite <- app_assoc.
    + reflexivity.
Qed.

Lemma calculate_position_code code r :
  calculate_position fetch code = Some r -> etf_code r = code.
Proof.
  intros H. destruct (calculate_position_inv fetch code r H)
    as (df & a & c & _ & _ & _ & _ & S).
  unfold sized in S.
  destruct (Qle_bool c 0); [discriminate|].
  destruct (Qeq_bool a 0); [discriminate|].
  now injection S as <-.
Qed.

End MainFacts.

(** X6: [main] saves the recommendations of the instruments that have one,
    in the order of [ETF_CODES] and without sorting; an instrument without a
    recommendation leaves no row, and nothing is saved exactly when no
    instrument has a recommendation. *)
Theorem X6_main_keeps_input_order fetch :
  match main fetch with
  | Some rows =>
      rows <> [] /\
      map etf_code rows
      = filter (fun c => match calculate_position fetch c with
                         | Some _ => true
                         | None => false
                         end) ETF_CODES /\
      forall r, In r rows -> calculate_position fetch (etf_code r) = Some r
  | None => forall c, In c ETF_CODES -> calculate_position fetch c = None
  end.
Proof.
  unfold main. rewrite collect_positions_flat_map. cbn [app].
  generalize ETF_CODES as codes. intros codes.
  assert (G : map etf_code
                (flat_map (fun c => match calculate_position fetch c with
                                    | Some p => [p]
                                    | None => []
                                    end) codes)
              = filter (fun c => match calculate_position fetch c with
                                 | Some _ => true
                                 | None => false
                                 end) codes).
  { induction codes as [|c cs IH]; [reflexivity|]. cbn [flat_map filter].
    rewrite map_app, IH.
    destruct (calculate_position fetch c) as [p|] eqn:E; [|reflexivity].
    cbn [map app]. now rewrite (calculate_position_code fetch c p E). }
  assert (M : forall r,
             In r (flat_map (fun c => match calculate_position fetch c with
                                      | Some p => [p]
                                      | None => []
                                      end) codes) ->
             In (etf_code r) codes /\
             calculate_position fetch (etf_code r) = Some r).
  { intros r H. apply in_flat_map in H. destruct H as (c & Hc & Hr).
    destruct (calculate_position fetch c) as [p|] eqn:E; [|contradiction].
    destruct Hr as [<-|[]].
    rewrite (calculate_position_code fetch c p E). auto. }
  destruct (flat_map _ codes) as [|p ps] eqn:E.
  - intros c Hc.
    destruct (calculate_position fetch c) as [q|] eqn:Q; [|reflexivity].
    exfalso.
    assert (I : In c (filter (fun c => match calculate_position fetch c with
                                       | Some _ => true
                                       | None => false
                                       end) codes))
      by (apply filter_In; split; [exact Hc | now rewrite Q]).
    rewrite <- G in I. contradiction.
  - split; [discriminate|]. split; [exact G|]. intros r H. now apply M.
Qed.

End PositionExtra.

(** ** Further properties of [etf_risk_monitor.py] *)

Module RiskExtra.

Import RiskMonitor RiskSpec RiskFacts.

Lemma top_divergence_true price osc :
  top_divergence price osc = Ok true -> new_high price.
Proof.
  unfold top_divergence, idxmax, index_last, new_high.
  destruct price as [|p price]; [discriminate|]. cbn [bind].
  destruct (label_eqb (idxmax_from None 0 (p :: price))
                      (length (p :: price) - 1)) eqn:E; [|discriminate].
  intros _. now apply label_eqb_first_argmax.
Qed.

Lemma check_rsi_divergence_true rsi df :
  check_rsi_divergence rsi df = Ok true ->
  (19 <= length df)%nat /\
  top_divergence (tail 5 (close_series df))
                 (tail 5 (rsi (closes df) RSI_PERIOD)) = Ok true.
Proof.
  rewrite check_rsi_divergence_unfold.
  destruct (length df <? 19)%nat eqn:E; [discriminate|].
  apply Nat.ltb_ge in E. auto.
Qed.

Lemma check_obv_divergence_true obv df :
  check_obv_divergence obv df = Ok true ->
  (10 <= length df)%nat /\
  top_divergence (tail 5 (close_series df))
                 (tail 5 (obv (closes df) (volumes df))) = Ok true.
Proof.
  rewrite check_obv_divergence_unfold.
  destruct (length df <? 10)%nat eqn:E; [discriminate|].
  apply Nat.ltb_ge in E. auto.
Qed.

Lemma closes_length df : length (closes df) = length df.
Proof. unfold closes. apply length_map. Qed.

Lemma new_high_closes df :
  (5 <= length df)%nat ->
  (new_high (tail 5 (close_series df)) <-> strict_closing_high df).
Proof.
  intros L. unfold new_high, close_series, strict_closing_high.
  rewrite tail_map, length_map.
  rewrite (tail_length 5 (closes df)) by (rewrite closes_length; lia).
  change (5 - 1)%nat with 4%nat. split.
  - intros (v & Hv & _ & Hfirst).
    rewrite nth_error_map in Hv.
    destruct (nth_error (tail 5 (closes df)) 4) as [last|] eqn:E;
      [|discriminate].
    injection Hv as ->. exists v. split; [reflexivity|].
    intros j c Hj Hc. apply (Hfirst j c Hj).
    now rewrite nth_error_map, Hc.
  - intros (last & Hl & Hlow). exists last.
    split; [now rewrite nth_error_map, Hl|]. split.
    + intros j u Hu. rewrite nth_error_map in Hu.
      destruct (nth_error (tail 5 (closes df)) j) as [c|] eqn:E;
        [|discriminate].
      injection Hu as ->.
      destruct (Nat.lt_ge_cases j 4) as [Lt|Ge].
      * apply Qlt_le_weak. eauto.
      * assert (J : j = 4%nat).
        { assert (j < 5)%nat; [|lia].
          rewrite <- (tail_length 5 (closes df))
            by (rewrite closes_length; lia).
          apply nth_error_Some. congruence. }
        subst j. rewrite Hl in E. injection E as ->. apply Qle_refl.
    + intros j u Hj Hu. rewrite nth_error_map in Hu.
      destruct (nth_error (tail 5 (closes df)) j) as [c|] eqn:E;
        [|discriminate].
      injection Hu as ->. eauto.
Qed.

Lemma divergence_true_strict_high rsi obv df :
  check_rsi_divergence rsi df = Ok true \/
  check_obv_divergence obv df = Ok true ->
  strict_closing_high df.
Proof.
  intros [H|H].
  - apply check_rsi_divergence_true in H. destruct H as [L H].
    apply top_divergence_true in H. apply new_high_closes; [lia | exact H].
  - apply check_obv_divergence_true in H. destruct H as [L H].
    apply top_divergence_true in H. apply new_high_closes; [lia | exact H].
Qed.

(** X7: neither divergence check raises its flag unless the latest close is
    a strict new high of the last five closes: strictly above each of the
    four closes before it.  A close that only ties an earlier one is not
    flagged, whatever the oscillator does. *)
Theorem X7_divergence_needs_strict_closing_high rsi obv df :
  check_rsi_divergence rsi df = Ok true \/
  check_obv_divergence obv df = Ok true ->
  strict_closing_high df.
Proof.
  intros H. destruct H as [H|H].
  - apply (divergence_true_strict_high rsi obv df). now left.
  - apply (divergence_true_strict_high rsi obv df). now right.
Qed.

Lemma X7_strict_high_witness : strict_closing_high thin_high_frame.
Proof.
  apply (X7_divergence_needs_strict_closing_high
           Ta.rsi_indicator Ta.on_balance_volume thin_high_frame).
  right. reflexivity.
Defined.

(** X8: on a frame of at least 19 bars with an aligned RSI series, a strict
    new closing high is flagged as RSI divergence as soon as one of the four
    earlier RSI values of the window is at least the latest RSI value.  An
    RSI that merely repeats its earlier level, such as an RSI pinned at 100
    in a steady rise, therefore raises the flag. *)
Theorem X8_rsi_tie_is_flagged (rsi : list Q -> nat -> list fl) df v j u :
  (RSI_PERIOD + 5 <= length df)%nat ->
  length (rsi (closes df) RSI_PERIOD) = length df ->
  strict_closing_high df ->
  nth_error (tail 5 (rsi (closes df) RSI_PERIOD)) 4 = Some (Some v) ->
  (j < 4)%nat ->
  nth_error (tail 5 (rsi (closes df) RSI_PERIOD)) j = Some (Some u) ->
  v <= u ->
  check_rsi_divergence rsi df = Ok true.
Proof.
  intros L Al Hp Hv Hj Hu Le. unfold RSI_PERIOD in L.
  rewrite check_rsi_divergence_unfold.
  assert (G : (length df <? 19)%nat = false) by (apply Nat.ltb_ge; lia).
  rewrite G.
  assert (T : length (tail 5 (rsi (closes df) RSI_PERIOD)) = 5%nat)
    by (apply tail_length; lia).
  destruct (top_divergence_new_high
              (tail 5 (close_series df)) (tail 5 (rsi (closes df) RSI_PERIOD)))
    as (b & Hb & Hiff).
  - apply tail_nonempty; [lia|].
    eapply nonempty_of_length; [apply close_series_length | lia].
  - eapply nonempty_of_length; [exact T | lia].
  - assert (B : b = true).
    { apply Hiff. split.
      - apply new_high_closes; [lia | exact Hp].
      - unfold new_high. rewrite T. change (5 - 1)%nat with 4%nat.
        intros (w & Hw & _ & Hfirst).
        rewrite Hv in Hw. injection Hw as <-.
        pose proof (Hfirst j u Hj Hu). lra. }
    rewrite B in Hb. exact Hb.
Qed.

Lemma X8_rsi_tie_witness :
  check_rsi_divergence Ta.rsi_indicator (rising_frame 19) = Ok true.
Proof.
  apply (X8_rsi_tie_is_flagged Ta.rsi_indicator (rising_frame 19)
           100 0 100).
  - unfold RSI_PERIOD. simpl. lia.
  - reflexivity.
  - exists (118 # 10). split; [reflexivity|].
    intros j c Hj Hc.
    do 4 (destruct j as [|j];
          [vm_compute in Hc; injection Hc as <-; reflexivity|]).
    lia.
  - reflexivity.
  - lia.
  - reflexivity.
  - vm_compute. discriminate.
Defined.

(** *** The death cross on consecutive dates *)

Lemma check_ema_death_cross_true ema df :
  check_ema_death_cross ema df = Ok true ->
  (EMA_LONG + 1 <= length df)%nat /\
  exists short_now long_now,
    iloc_neg (ema (closes df) EMA_SHORT) 1 = Ok short_now /\
    iloc_neg (ema (closes df) EMA_LONG) 1 = Ok long_now /\
    flt short_now long_now = true.
Proof.
  unfold check_ema_death_cross.
  destruct (length df <? EMA_LONG + 1)%nat eqn:G; [discriminate|].
  apply Nat.ltb_ge in G. split; [exact G|].
  destruct (iloc_neg (ema (closes df) EMA_SHORT) 2) as [sp|]; [|discriminate].
  destruct (iloc_neg (ema (closes df) EMA_LONG) 2) as [lp|]; [|discriminate].
  cbn [bind] in H.
  destruct (fgt sp lp); [|discriminate].
  destruct (iloc_neg (ema (closes df) EMA_SHORT) 1) as [sn|]; [|discriminate].
  destruct (iloc_neg (ema (closes df) EMA_LONG) 1) as [ln|]; [|discriminate].
  cbn [bind] in H. injection H as H. eauto.
Qed.

(** The last row of a series is the second-to-last row of its extension. *)
Lemma iloc_neg_extended {A : Type} (s s' : list A) (n : nat) (x : A) :
  length s' = S n ->
  firstn n s' = s ->
  iloc_neg s 1 = Ok x ->
  iloc_neg s' 2 = Ok x.
Proof.
  intros L F H. apply iloc_neg_ok in H.
  assert (Ls : length s = n) by (rewrite <- F, length_firstn; lia).
  assert (P : (1 <= n)%nat).
  { destruct n; [|lia]. destruct s; [discriminate | simpl in Ls; lia]. }
  apply iloc_neg_nth; [lia|].
  rewrite L. replace (S n - 2)%nat with (n - 1)%nat by lia.
  rewrite Ls, <- F, nth_error_firstn in H.
  assert (E : (n - 1 <? n)%nat = true) by (apply Nat.ltb_lt; lia).
  now rewrite E in H.
Qed.

(** X9: a death cross is reported on one date only.  If the check flags a
    frame, it does not flag the frame extended by the next bar, provided the
    two moving averages of the extended frame continue those of the frame
    (an indicator value depends on the bars up to its own date only). *)
Theorem X9_death_cross_not_on_consecutive_dates ema df b :
  length (ema (closes (df ++ [b])) EMA_SHORT) = S (length df) ->
  length (ema (closes (df ++ [b])) EMA_LONG) = S (length df) ->
  firstn (length df) (ema (closes (df ++ [b])) EMA_SHORT)
  = ema (closes df) EMA_SHORT ->
  firstn (length df) (ema (closes (df ++ [b])) EMA_LONG)
  = ema (closes df) EMA_LONG ->
  check_ema_death_cross ema df = Ok true ->
  check_ema_death_cross ema (df ++ [b]) = Ok false.
Proof.
  intros Ls Ll Fs Fl H.
  apply check_ema_death_cross_true in H.
  destruct H as (G & sn & ln & Hs & Hl & Lt).
  pose proof (iloc_neg_extended _ _ _ _ Ls Fs Hs) as Hs'.
  pose proof (iloc_neg_extended _ _ _ _ Ll Fl Hl) as Hl'.
  unfold check_ema_death_cross.
  assert (G' : (length (df ++ [b]) <? EMA_LONG + 1)%nat = false).
  { apply Nat.ltb_ge. rewrite length_app. cbn [length]. lia. }
  rewrite G', Hs', Hl'. cbn [bind].
  assert (N : fgt sn ln = false).
  { unfold flt in Lt. apply fgt_true in Lt.
    destruct Lt as (x & y & -> & -> & K). unfold fgt.
    assert (Q : Qle_bool y x = true) by (apply Qle_bool_iff; lra).
    now rewrite Q. }
  now rewrite N.
Qed.

Lemma X9_death_cross_witness :
  check_ema_death_cross Ta.ema_indicator (peak_frame 27 7) = Ok false.
Proof.
  apply (X9_death_cross_not_on_consecutive_dates
           Ta.ema_indicator (peak_frame 27 6) (mkBar (92 # 10) 1000));
    reflexivity.
Defined.

(** *** The monitor record *)

(** X10: when [monitor_etf] returns a record, it carries the instrument code
    and the latest close rounded to 3 decimals, and a warning is on only if
    the history is long enough for its check: 19 bars for the RSI
    divergence, 10 for the OBV divergence, 27 for the death cross.  Without
    data the result is [None]. *)
Theorem X10_monitor_record rsi obv ema fetch code m :
  monitor_etf rsi obv ema fetch code = Ok (Some m) ->
  exists df price,
    fetch code = Some df /\
    iloc_neg (closes df) 1 = Ok price /\
    etf_code m = code /\
    latest_price m = round_q price 3 /\
    (rsi_divergence m = true -> (19 <= length df)%nat /\ strict_closing_high df) /\
    (obv_divergence m = true -> (10 <= length df)%nat /\ strict_closing_high df) /\
    (ema_death_cross m = true -> (27 <= length df)%nat).
Proof.
  unfold monitor_etf. intros H.
  destruct (fetch code) as [df|] eqn:F; [|discriminate].
  destruct (iloc_neg (closes df) 1) as [price|] eqn:P; [|discriminate].
  cbn [bind] in H.
  destruct (check_rsi_divergence rsi df) as [r|] eqn:R; [|discriminate].
  destruct (check_obv_divergence obv df) as [o|] eqn:O; [|discriminate].
  destruct (check_ema_death_cross ema df) as [e|] eqn:E; [|discriminate].
  cbn [bind] in H. injection H as <-.
  cbn [etf_code latest_price rsi_divergence obv_divergence ema_death_cross].
  exists df, price. split; [reflexivity|]. split; [exact P|].
  do 2 (split; [reflexivity|]).
  split; [|split].
  - intros ->. split.
    + now apply check_rsi_divergence_true in R.
    + apply (divergence_true_strict_high rsi obv df). now left.
  - intros ->. split.
    + now apply check_obv_divergence_true in O.
    + apply (divergence_true_strict_high rsi obv df). now right.
  - intros ->. now apply check_ema_death_cross_true in E.
Qed.

Lemma X10_monitor_witness :
  exists df price,
    Some thin_high_frame = Some df /\ iloc_neg (closes df) 1 = Ok price.
Proof.
  destruct (monitor_etf Ta.rsi_indicator Ta.on_balance_volume Ta.ema_indicator
              (fun _ => Some thin_high_frame) "588000") as [[m|]|] eqn:E;
    try (vm_compute in E; discriminate).
  destruct (X10_monitor_record
              Ta.rsi_indicator Ta.on_balance_volume Ta.ema_indicator
              (fun _ => Some thin_high_frame) "588000" m E)
    as (df & price & F & P & _).
  exists df, price. split; [exact F | exact P].
Defined.

End RiskExtra.

(** ** Further properties of [etf_trend_evaluation.py] *)

Module TrendExtra.

Import TrendEvaluation TrendSpec TrendFacts.



(** *** Monotonicity *)

Lemma round_half_even_floor y :
  (Qfloor y <= round_half_even y <= Qfloor y + 1)%Z.
Proof.
  unfold round_half_even.
  destruct (Qcompare _ _); [destruct (Z.even _)| |]; lia.
Qed.

Lemma round_half_even_mono x y : x <= y -> (round_half_even x <= round_half_even y)%Z.
Proof.
  intros H. pose proof (Qfloor_resp_le _ _ H) as F.
  destruct (Z.eq_dec (Qfloor x) (Qfloor y)) as [E|N].
  - unfold round_half_even. rewrite E.
    destruct (Qcompare (x - inject_Z (Qfloor y)) (1 # 2)) eqn:Cx;
      destruct (Qcompare (y - inject_Z (Qfloor y)) (1 # 2)) eqn:Cy;
      try (destruct (Z.even (Qfloor y))); try lia; exfalso;
      repeat match goal with
             | C : Qcompare _ _ = Eq |- _ => apply Qeq_alt in C
             | C : Qcompare _ _ = Lt |- _ => apply Qlt_alt in C
             | C : Qcompare _ _ = Gt |- _ => apply Qgt_alt in C
             end; lra.
  - pose proof (round_half_even_floor x). pose proof (round_half_even_floor y).
    lia.
Qed.

Lemma round_q_mono x y n : x <= y -> round_q x n <= round_q y n.
Proof.
  intros H. pose proof (pow10_pos n) as P. unfold round_q.
  apply Qmult_le_compat_r.
  - rewrite <- Zle_Qle. apply round_half_even_mono.
    apply Qmult_le_compat_r; [exact H | lra].
  - apply Qlt_le_weak, Qinv_lt_0_compat, P.
Qed.

Lemma spec_adx_score_mono a1 a2 : a1 <= a2 -> spec_adx_score a1 <= spec_adx_score a2.
Proof.
  intros H. unfold spec_adx_score. rewrite !scale_50. unfold qmin.
  destruct (Qle_bool a1 50) eqn:E1; destruct (Qle_bool a2 50) eqn:E2;
    try (apply Qle_bool_iff in E1); try (apply Qle_bool_iff in E2); try lra.
  assert (~ a1 <= 50) by (intros K; apply Qle_bool_iff in K; congruence).
  lra.
Qed.

Lemma spec_rsi_score_mono r1 r2 : r1 <= r2 -> spec_rsi_score r1 <= spec_rsi_score r2.
Proof.
  intros H. unfold spec_rsi_score, qmax.
  pose proof (scale_30 r1) as X1. pose proof (scale_30 r2) as X2.
  set (x1 := (r1 - 50) / 30 * 100) in *. set (x2 := (r2 - 50) / 30 * 100) in *.
  clearbody x1 x2.
  destruct (Qle_bool 0 x1) eqn:E1; destruct (Qle_bool 0 x2) eqn:E2;
    try (apply Qle_bool_iff in E1); try (apply Qle_bool_iff in E2); try lra.
  assert (~ 0 <= x2) by (intros K; apply Qle_bool_iff in K; congruence).
  lra.
Qed.

(** X12: the reported score is monotone in the two strength indicators: of
    two frames whose latest rows carry the same MACD lines, the one with the
    larger (or equal) ADX and RSI gets the larger (or equal) score, rounding
    included. *)
Theorem X12_score_monotone_in_adx_and_rsi
  code1 code2 rows1 rows2 latest1 latest2 a1 a2 r1 r2 ev1 ev2 s1 s2 :
  (30 <= length rows1)%nat ->
  (30 <= length rows2)%nat ->
  iloc_neg rows1 1 = Ok latest1 ->
  iloc_neg rows2 1 = Ok latest2 ->
  ADX latest1 = Some a1 -> ADX latest2 = Some a2 ->
  RSI latest1 = Some r1 -> RSI latest2 = Some r2 ->
  MACD_DIF latest1 = MACD_DIF latest2 ->
  MACD_DEA latest1 = MACD_DEA latest2 ->
  a1 <= a2 -> r1 <= r2 ->
  evaluate_trend (Some rows1) code1 = Ok (Some ev1) ->
  evaluate_trend (Some rows2) code2 = Ok (Some ev2) ->
  total_score ev1 = Some s1 ->
  total_score ev2 = Some s2 ->
  s1 <= s2.
Proof.
  intros L1 L2 I1 I2 A1 A2 R1 R2 Dif Dea Ha Hr E1 E2 S1 S2.
  destruct (evaluate_trend_score rows1 code1 latest1 a1 r1 L1 I1 A1 R1)
    as (e1 & t1 & F1 & T1 & M1 & Q1).
  destruct (evaluate_trend_score rows2 code2 latest2 a2 r2 L2 I2 A2 R2)
    as (e2 & t2 & F2 & T2 & M2 & Q2).
  rewrite E1 in F1. injection F1 as <-. rewrite E2 in F2. injection F2 as <-.
  rewrite S1 in T1. injection T1 as ->. rewrite S2 in T2. injection T2 as ->.
  apply round_q_mono. rewrite Q1, Q2.
  assert (M : macd_status ev1 = macd_status ev2)
    by (rewrite M1, M2, Dif, Dea; reflexivity).
  rewrite M.
  pose proof (spec_adx_score_mono a1 a2 Ha).
  pose proof (spec_rsi_score_mono r1 r2 Hr).
  destruct (macd_status ev2); lra.
Qed.

Lemma X12_score_monotone_witness : 77.4 <= 120.0.
Proof.
  apply (X12_score_monotone_in_adx_and_rsi "510050" "513100"
           (frame_ending 29 33 (1 # 2) (4 # 10) 71)
           (frame_ending 29 60 (1 # 2) (4 # 10) 100)
           (mkRow (mkBar 12 11 12) (Some 33) (Some (1 # 2)) (Some (4 # 10))
                  (Some 71))
           (mkRow (mkBar 12 11 12) (Some 60) (Some (1 # 2)) (Some (4 # 10))
                  (Some 100))
           33 60 71 100
           (mkEvaluation "510050" (Some 33.00) true (Some 71.00) (Some 77.4))
           (mkEvaluation "513100" (Some 60.00) true (Some 100.00) (Some 120.0))
           77.4 120.0).
  all: try reflexivity.
  all: try (simpl; lia).
  all: try (vm_compute; discriminate).
Defined.

(** *** Failed instruments *)

Lemma successes_filter adx rsi fetch codes :
  successes adx rsi fetch (filter (successful fetch) codes)
  = successes adx rsi fetch codes.
Proof.
  induction codes as [|c r IH]; [reflexivity|].
  unfold successes in *. cbn [filter flat_map].
  pose proof (record_of_successful adx rsi fetch c) as S.
  destruct (successful fetch c) eqn:E.
  - cbn [flat_map]. now rewrite IH.
  - rewrite IH.
    destruct (record_of adx rsi fetch c) as [ev|]; [|reflexivity].
    destruct S as [_ S]. discriminate S. eauto.
Qed.

(** X14: a failed instrument leaves no trace in the batch: when every
    fetched frame of the list has at least one row, the result of
    [evaluate_multiple_etfs] on the list of codes is the result on the list
    without the instruments whose download fails or whose history has fewer
    than 30 bars. *)
Theorem X14_failed_instruments_leave_no_trace adx rsi fetch codes :
  (forall c, In c codes -> has_rows fetch c) ->
  evaluate_multiple_etfs adx rsi fetch codes
  = evaluate_multiple_etfs adx rsi fetch (filter (successful fetch) codes).
Proof.
  intros NE. unfold evaluate_multiple_etfs.
  rewrite (evaluate_each_successes adx rsi fetch codes NE).
  rewrite (evaluate_each_successes adx rsi fetch (filter (successful fetch) codes)).
  - now rewrite successes_filter.
  - intros c Hc. apply filter_In in Hc. now apply NE.
Qed.

Lemma X14_no_trace_witness :
  evaluate_multiple_etfs standin_adx standin_rsi sample_provider
    ["588000"; "159205"; "510500"; "510300"]%string
  = evaluate_multiple_etfs standin_adx standin_rsi sample_provider
      (filter (successful sample_provider)
              ["588000"; "159205"; "510500"; "510300"]%string).
Proof.
  apply (X14_failed_instruments_leave_no_trace
           standin_adx standin_rsi sample_provider
           ["588000"; "159205"; "510500"; "510300"]%string).
  intros c Hc. unfold has_rows.
  simpl in Hc. destruct Hc as [<-|[<-|[<-|[<-|[]]]]]; vm_compute; discriminate.
Defined.

(** *** The batch on frames that have rows *)

Lemma score_before_ge a b :
  score_before a b = true <-> score_ge (total_score a) (total_score b).
Proof.
  unfold score_before, score_ge.
  destruct (total_score a) as [x|], (total_score b) as [y|].
  - apply Qle_bool_iff.
  - tauto.
  - split; [discriminate | contradiction].
  - tauto.
Qed.

Lemma sorted_by_score_ge rows :
  StronglySorted score_desc rows ->
  StronglySorted (fun a b => score_ge (total_score a) (total_score b)) rows.
Proof.
  induction 1 as [|e r _ IH F]; constructor; [exact IH|].
  eapply Forall_impl; [|exact F].
  intros b Hb. now apply score_before_ge.
Qed.

(** X15: when every fetched frame of the list has at least one row, the
    batch does not raise; it skips the instruments whose download fails or
    whose history has fewer than 30 bars and goes on with the others.  The
    collection it returns holds exactly one record per successful instrument
    and none for the others, each record being the evaluation of that
    instrument's own frame, and consecutive or not, an earlier row never has
    a smaller score than a later one (NaN scores last).  It returns [None]
    exactly when no instrument is successful. *)
Theorem X15_batch_on_frames_with_rows adx rsi fetch codes :
  (forall c, In c codes -> has_rows fetch c) ->
  exists out,
    evaluate_multiple_etfs adx rsi fetch codes = Ok out /\
    (out = None <-> forall c, In c codes -> successful fetch c = false) /\
    (forall rows,
       out = Some rows ->
       Permutation (map etf_code rows) (filter (successful fetch) codes) /\
       StronglySorted
         (fun a b => score_ge (total_score a) (total_score b)) rows /\
       forall ev,
         In ev rows ->
         In (etf_code ev) codes /\
         exists bars frame,
           fetch (etf_code ev) = Some bars /\
           (30 <= length bars)%nat /\
           calculate_technical_indicators adx rsi (Some bars) = Some frame /\
           evaluate_trend (Some frame) (etf_code ev) = Ok (Some ev)).
Proof.
  intros NE. unfold evaluate_multiple_etfs.
  rewrite (evaluate_each_successes adx rsi fetch codes NE). cbn [bind app].
  pose proof (successes_codes adx rsi fetch codes) as SC.
  assert (Mem : forall ev, In ev (successes adx rsi fetch codes) ->
                  In (etf_code ev) codes /\
                  record_of adx rsi fetch (etf_code ev) = Some ev).
  { intros ev H. unfold successes in H. apply in_flat_map in H.
    destruct H as (c & Hc & He).
    destruct (record_of adx rsi fetch c) as [e|] eqn:R; [|contradiction].
    destruct He as [<-|[]].
    destruct (record_of_some adx rsi fetch c e R) as [-> _]. auto. }
  destruct (successes adx rsi fetch codes) as [|e es] eqn:S.
  - exists None. split; [reflexivity|]. split; [|discriminate].
    split; [|reflexivity]. intros _ c Hc.
    destruct (successful fetch c) eqn:E; [|reflexivity].
    assert (I : In c (filter (successful fetch) codes))
      by (apply filter_In; auto).
    rewrite <- SC in I. contradiction.
  - exists (Some (sort_values (e :: es))). split; [reflexivity|].
    split.
    { split; [discriminate|]. intros H. exfalso.
      assert (I : In (etf_code e) (filter (successful fetch) codes))
        by (rewrite <- SC; now left).
      apply filter_In in I. destruct I as [I1 I2].
      rewrite (H _ I1) in I2. discriminate. }
    intros rows [= <-]. split; [|split].
    + rewrite <- SC.
      exact (Permutation_map etf_code (sort_values_perm (e :: es))).
    + exact (sorted_by_score_ge _ (sort_values_sorted (e :: es))).
    + intros ev H.
      apply (Permutation_in _ (sort_values_perm (e :: es))) in H.
      destruct (Mem ev H) as [I R]. split; [exact I|].
      destruct (record_of_some adx rsi fetch _ ev R) as (_ & bars & frame & P).
      exists bars, frame. exact P.
Qed.

Lemma X15_batch_witness :
  exists out,
    evaluate_multiple_etfs standin_adx standin_rsi sample_provider
      ["588000"; "159205"; "510500"; "510300"]%string = Ok out /\
    (out = None <->
     forall c, In c ["588000"; "159205"; "510500"; "510300"]%string ->
               successful sample_provider c = false).
Proof.
  destruct (X15_batch_on_frames_with_rows
              standin_adx standin_rsi sample_provider
              ["588000"; "159205"; "510500"; "510300"]%string)
    as (out & E & N & _).
  - intros c Hc. unfold has_rows.
    simpl in Hc. destruct Hc as [<-|[<-|[<-|[<-|[]]]]]; vm_compute; discriminate.
  - exists out. split; [exact E | exact N].
Defined.

End TrendExtra.
